(** * management/backup.py: backup chain status, full-backup policy and
      the service-suspension protocol around a duplicity run.

    Shallow embedding of [management/backup.py].  Python dictionaries that
    are used as maps (the configuration document, the subprocess
    environment) are finite maps; the per-backup dictionaries built by
    [parse_line] have a fixed set of keys and are records.  Functions that
    raise return a [result]; [perform_backup], which talks to the service
    manager, the file system and duplicity, runs in a small state-and-error
    monad whose state carries the directories that exist and the list of
    external actions issued so far.

    Numbers: Python integers are [Z].  The two places where the script goes
    through floating point ([.5 * size] and the deletion estimate) are
    computed in IEEE 754 binary64 with round-to-nearest-even, as CPython
    does: every operation is the exact rational result rounded to the
    nearest double (module [Float]).

    Strings: a Python [str] is a sequence of code points; a [string] here is
    the sequence of its code points, each below 256, so [String.length] is
    [len()].  Text with code points from 256 on has no counterpart. *)

From Stdlib Require Import ZArith QArith Qround String Ascii List Lia DecimalString.
From stdpp Require Import gmap strings list sorting.

Close Scope Q_scope.
Open Scope string_scope.
Open Scope Z_scope.

(** ** Exceptions and results *)

Inductive exn :=
| AlreadyRunning                       (* exclusive_process: lock is held *)
| CalledProcessError (argv : list string) (code : Z)
| PassphraseTooShort                   (* "secret_key.txt's first line is too short!" *)
| IOError (path : string)              (* open() / rmtree on a missing path *)
| KeyError (key : string)
| IndexError
| ValueError
| TypeError
| AttributeError
| ZeroDivisionError
| OverflowError
| OutOfFuel.    (* model only: the bounded unrolling of a library loop was too short *)

Inductive result (A : Type) :=
| Ok (a : A)
| Raise (e : exn).
Arguments Ok {A} a.
Arguments Raise {A} e.

Definition rbind {A B} (r : result A) (k : A -> result B) : result B :=
  match r with
  | Ok a => k a
  | Raise e => Raise e
  end.

#[global] Instance result_ret : MRet result := fun A a => Ok a.
#[global] Instance result_bind : MBind result := fun A B k r => rbind r k.

(** ** Strings as Python uses them here *)

Definition nl : string := String (ascii_of_nat 10) EmptyString.

(** [str.isspace] on one character, which is what [strip()] and [split()]
    go by: TAB, LF, VT, FF, CR, the separators FS, GS, RS, US, the space,
    NEL and the no-break space. *)
Definition is_space (c : ascii) : bool :=
  let n := nat_of_ascii c in
  (((9 <=? n) && (n <=? 13)) || ((28 <=? n) && (n <=? 32))
   || (n =? 133) || (n =? 160))%nat.

(** The blanks that [int()] skips: the same without FS, GS, RS and US. *)
Definition is_int_space (c : ascii) : bool :=
  let n := nat_of_ascii c in
  (((9 <=? n) && (n <=? 13)) || (n =? 32) || (n =? 133) || (n =? 160))%nat.

(** Dropping the blanks at the front, at the end, and on both sides. *)
Fixpoint lstrip_of (blank : ascii -> bool) (s : string) : string :=
  match s with
  | String c s' => if blank c then lstrip_of blank s' else s
  | EmptyString => EmptyString
  end.

Fixpoint rstrip_of (blank : ascii -> bool) (s : string) : string :=
  match s with
  | String c s' =>
      match rstrip_of blank s' with
      | EmptyString => if blank c then EmptyString else String c EmptyString
      | t => String c t
      end
  | EmptyString => EmptyString
  end.

Definition strip_of (blank : ascii -> bool) (s : string) : string :=
  rstrip_of blank (lstrip_of blank s).

(** [s.strip()] *)
Definition strip (s : string) : string := strip_of is_space s.

(** [str.split()] with no argument: maximal runs of non-blank characters.
    ([line.strip().split()] is the same list.) *)
Fixpoint split_ws_aux (cur : string) (s : string) : list string :=
  match s with
  | EmptyString => match cur with EmptyString => [] | _ => [String.rev cur] end
  | String c s' =>
      if is_space c
      then match cur with
           | EmptyString => split_ws_aux EmptyString s'
           | _ => String.rev cur :: split_ws_aux EmptyString s'
           end
      else split_ws_aux (String c cur) s'
  end.

Definition split_ws (s : string) : list string := split_ws_aux EmptyString s.

(** [s.split(sep)] for a one-character separator: never empty. *)
Fixpoint split_char_aux (sep : ascii) (cur : string) (s : string) : list string :=
  match s with
  | EmptyString => [String.rev cur]
  | String c s' =>
      if Ascii.eqb c sep
      then String.rev cur :: split_char_aux sep EmptyString s'
      else split_char_aux sep (String c cur) s'
  end.

Definition split_char (sep : ascii) (s : string) : list string :=
  split_char_aux sep EmptyString s.

Definition startswith (s p : string) : bool := String.prefix p s.

Definition endswith (s p : string) : bool := String.prefix (String.rev p) (String.rev s).

(** ["%d" % z] *)
Definition pct_d (z : Z) : string := NilZero.string_of_int (Z.to_int z).

(** [int(s)]: the blanks around the number are dropped; then an optional
    sign and decimal digits, where one underscore may stand between two
    digits.  The number of digits is not limited (CPython from 3.11 on
    refuses more than 4300 of them unless told otherwise). *)
Definition digit_val (c : ascii) : option Z :=
  let n := nat_of_ascii c in
  if ((48 <=? n) && (n <=? 57))%nat then Some (Z.of_nat n - 48) else None.

(** [after_digit]: the previous character was a digit. *)
Fixpoint digits_val (acc : Z) (after_digit : bool) (s : string) : option Z :=
  match s with
  | EmptyString => if after_digit then Some acc else None
  | String c s' =>
      if Ascii.eqb c "_"
      then (if after_digit then digits_val acc false s' else None)
      else match digit_val c with
           | Some d => digits_val (10 * acc + d) true s'
           | None => None
           end
  end.

Definition py_int (s : string) : result Z :=
  let r :=
    match strip_of is_int_space s with
    | String "-" t => option_map Z.opp (digits_val 0 false t)
    | String "+" t => digits_val 0 false t
    | t => digits_val 0 false t
    end in
  match r with Some z => Ok z | None => Raise ValueError end.

(** [os.path.join(a, b)] *)
Definition path_join (a b : string) : string :=
  if startswith b "/" then b
  else if String.eqb a "" || endswith a "/" then a +:+ b
  else a +:+ "/" +:+ b.

(** ** Floating point ([float])

    A finite double is represented by the rational number it stands for
    (the sign of a zero plays no part in this script); the infinities and
    the NaN are values of their own.  Every operation returns the exact
    result rounded to binary64: 53 significant bits, exponents from -1022
    to 1023, subnormals below, ties to the even significand. *)

Module Float.

Inductive float :=
| Finite (q : Q)
| Inf (negative : bool)
| NaN.

(** The exponent [e] with [2^e <= p/d < 2^(e+1)]. *)
Definition floor_log2 (p d : positive) : Z :=
  let k := Z.log2 (Z.pos p) - Z.log2 (Z.pos d) in
  let le := if 0 <=? k then Z.pos d * 2 ^ k <=? Z.pos p
            else Z.pos d <=? Z.pos p * 2 ^ (- k) in
  if le then k else k - 1.

(** The integer nearest to [n/d] ([0 <= n], [0 < d]), ties to the even one. *)
Definition div_half_even (n d : Z) : Z :=
  let q := n / d in
  match 2 * (n mod d) ?= d with
  | Lt => q
  | Gt => q + 1
  | Eq => if Z.even q then q else q + 1
  end.

(** [p/d] rounded to a multiple of [2^-s], where [s = 52 - e] leaves 53
    bits in front (fewer for a subnormal); [2^1024] is out of range. *)
Definition nearest_pos (negative : bool) (p d : positive) : float :=
  let e := Z.max (floor_log2 p d) (-1022) in
  let s := 52 - e in
  if 0 <=? s then
    let n := div_half_even (Z.pos p * 2 ^ s) (Z.pos d) in
    Finite (Qred ((if negative then - n else n) # Z.to_pos (2 ^ s)))
  else
    let v := div_half_even (Z.pos p) (Z.pos d * 2 ^ (- s)) * 2 ^ (- s) in
    if 2 ^ 1024 <=? v then Inf negative
    else Finite (inject_Z (if negative then - v else v)).

(** The double nearest to a rational. *)
Definition nearest (x : Q) : float :=
  match Qnum x with
  | 0 => Finite 0
  | Z.pos p => nearest_pos false p (Qden x)
  | Z.neg p => nearest_pos true p (Qden x)
  end.

Definition negative (q : Q) : bool := Qnum q <? 0.

Definition add (a b : float) : float :=
  match a, b with
  | Finite x, Finite y => nearest (x + y)
  | NaN, _ | _, NaN => NaN
  | Inf s, Inf t => if Bool.eqb s t then Inf s else NaN
  | Inf s, Finite _ | Finite _, Inf s => Inf s
  end.

Definition opp (a : float) : float :=
  match a with
  | Finite x => Finite (- x)
  | Inf s => Inf (negb s)
  | NaN => NaN
  end.

Definition sub (a b : float) : float := add a (opp b).

Definition mul (a b : float) : float :=
  match a, b with
  | Finite x, Finite y => nearest (x * y)
  | NaN, _ | _, NaN => NaN
  | Inf s, Inf t => Inf (xorb s t)
  | Inf s, Finite y | Finite y, Inf s =>
      if Qeq_bool y 0 then NaN else Inf (xorb s (negative y))
  end.

(** [a / b] on floats: a zero divisor raises. *)
Definition div (a b : float) : result float :=
  match b with
  | Finite y =>
      if Qeq_bool y 0 then Raise ZeroDivisionError else
      match a with
      | Finite x => Ok (nearest (x / y))
      | Inf s => Ok (Inf (xorb s (negative y)))
      | NaN => Ok NaN
      end
  | Inf _ => match a with Finite _ => Ok (Finite 0) | _ => Ok NaN end
  | NaN => Ok NaN
  end.

(** The conversion of an [int] operand of a float operation: "int too
    large to convert to float" from [2^1024 - 2^970] on, where the nearest
    double would be [2^1024]. *)
Definition of_int (z : Z) : result float :=
  if 2 ^ 1024 - 2 ^ 970 <=? Z.abs z then Raise OverflowError
  else Ok (nearest (inject_Z z)).

(** [a / b] on integers: the exact quotient, rounded once. *)
Definition true_div (a b : Z) : result float :=
  if b =? 0 then Raise ZeroDivisionError else
  match nearest (inject_Z a / inject_Z b) with
  | Inf _ => Raise OverflowError
  | f => Ok f
  end.

(** [z > f] for an integer and a float: Python compares the exact values. *)
Definition int_gt (z : Z) (f : float) : bool :=
  match f with
  | Finite q => match (inject_Z z ?= q)%Q with Gt => true | _ => false end
  | Inf s => s
  | NaN => false
  end.

(** [round(f)] of Python 3: to the nearest integer, ties to the even one. *)
Definition round (f : float) : result Z :=
  match f with
  | Finite x =>
      let f := Qfloor x in
      Ok match (x - inject_Z f ?= 1 # 2)%Q with
         | Lt => f
         | Gt => f + 1
         | Eq => if Z.even f then f else f + 1
         end
  | Inf _ => Raise OverflowError
  | NaN => Raise ValueError
  end.

End Float.

(** ** Python values found in the configuration document

    Strings, integers, and the values that take part in neither arithmetic
    nor string operations.  YAML floats and booleans are not represented. *)

Inductive pyval :=
| VStr (s : string)
| VInt (z : Z)
| VOther.       (* null, a list, a nested mapping *)

(** What [rtyaml.load] hands back. *)
Inductive yaml :=
| YMap (m : gmap string pyval)
| YOther.       (* a document that is not a mapping *)

Definition getitem (d : gmap string pyval) (k : string) : result pyval :=
  match d !! k with
  | Some v => Ok v
  | None => Raise (KeyError k)
  end.

(** ** Calendar arithmetic ([datetime], [dateutil.relativedelta])

    These are library functions, not part of the script; the definitions
    follow the libraries' algorithms for naive date-times in one zone. *)

Module Datetime.

Record datetime := mkdt {
  year : Z; month : Z; day : Z;
  hour : Z; minute : Z; second : Z; microsecond : Z
}.

Definition is_leap (y : Z) : bool :=
  (y mod 4 =? 0) && (negb (y mod 100 =? 0) || (y mod 400 =? 0)).

Definition days_in_month (y m : Z) : Z :=
  if m =? 2 then (if is_leap y then 29 else 28)
  else if (m =? 4) || (m =? 6) || (m =? 9) || (m =? 11) then 30
  else 31.

Definition days_before_year (y : Z) : Z :=
  let p := y - 1 in p * 365 + p / 4 - p / 100 + p / 400.

Fixpoint days_before_month_aux (y : Z) (n : nat) : Z :=
  match n with
  | O => 0
  | S k => days_before_month_aux y k + days_in_month y (Z.of_nat n)
  end.

Definition days_before_month (y m : Z) : Z :=
  days_before_month_aux y (Z.to_nat (m - 1)).

Definition toordinal (d : datetime) : Z :=
  days_before_year (year d) + days_before_month (year d) (month d) + day d.

(** Microseconds since the start of day 0 of the proleptic calendar. *)
Definition to_micros (d : datetime) : Z :=
  (((toordinal d * 24 + hour d) * 60 + minute d) * 60 + second d) * 1000000
  + microsecond d.

(** Comparison is field by field, most significant first. *)
Definition fields (d : datetime) : list Z :=
  [year d; month d; day d; hour d; minute d; second d; microsecond d].

Fixpoint lex_ltb (a b : list Z) : bool :=
  match a, b with
  | x :: a', y :: b' => if x <? y then true else if y <? x then false else lex_ltb a' b'
  | [], _ :: _ => true
  | _, _ => false
  end.

Definition ltb (a b : datetime) : bool := lex_ltb (fields a) (fields b).

(** [d + timedelta(days=1)] and [d - timedelta(days=1)] *)
Definition next_day (d : datetime) : datetime :=
  if day d <? days_in_month (year d) (month d)
  then mkdt (year d) (month d) (day d + 1) (hour d) (minute d) (second d) (microsecond d)
  else if month d <? 12
  then mkdt (year d) (month d + 1) 1 (hour d) (minute d) (second d) (microsecond d)
  else mkdt (year d + 1) 1 1 (hour d) (minute d) (second d) (microsecond d).

Definition prev_day (d : datetime) : datetime :=
  if 1 <? day d
  then mkdt (year d) (month d) (day d - 1) (hour d) (minute d) (second d) (microsecond d)
  else if 1 <? month d
  then mkdt (year d) (month d - 1) (days_in_month (year d) (month d - 1))
            (hour d) (minute d) (second d) (microsecond d)
  else mkdt (year d - 1) 12 31 (hour d) (minute d) (second d) (microsecond d).

(** [d - datetime.timedelta(days=n)]: [timedelta] takes up to 999999999
    days either way, and the difference must fall in the years 1 to 9999. *)
Definition minus_days (d : datetime) (n : Z) : result datetime :=
  if 999999999 <? Z.abs n then Raise OverflowError else
  let r := if 0 <=? n then Nat.iter (Z.to_nat n) prev_day d
           else Nat.iter (Z.to_nat (- n)) next_day d in
  if (1 <=? year r) && (year r <=? 9999) then Ok r else Raise OverflowError.

(** *** relativedelta(dt1, dt2) *)

Record relativedelta := mkrd {
  years : Z; months : Z; days : Z;
  hours : Z; minutes : Z; seconds : Z; microseconds : Z
}.

Definition sign (z : Z) : Z := if z <? 0 then -1 else 1.

(** [_set_months]: the pair (years, months) carried by the delta. *)
Definition set_months (m : Z) : Z * Z :=
  if 11 <? Z.abs m
  then let s := sign m in (((m * s) / 12) * s, ((m * s) mod 12) * s)
  else (0, m).

(** [__radd__] while only years and months are set. *)
Definition radd_months (d : datetime) (m : Z) : datetime :=
  let '(ys, ms) := set_months m in
  let y := year d + ys in
  let mo := month d + ms in
  let '(y, mo) :=
    if ms =? 0 then (y, month d)
    else if 12 <? mo then (y + 1, mo - 12)
    else if mo <? 1 then (y - 1, mo + 12)
    else (y, mo) in
  mkdt y mo (Z.min (days_in_month y mo) (day d))
       (hour d) (minute d) (second d) (microsecond d).

(** The adjustment loop [while compare(dt1, dtm): months += increment]. *)
Fixpoint adjust (fuel : nat) (dt1 dt2 : datetime) (up : bool) (m : Z) : option Z :=
  let dtm := radd_months dt2 m in
  let again := if up then ltb dtm dt1 else ltb dt1 dtm in
  if again
  then match fuel with
       | O => None
       | S f => adjust f dt1 dt2 up (if up then m + 1 else m - 1)
       end
  else Some m.

(** One step of [_fix]: carry [v] into the next unit when it leaves
    [-limit, limit]. *)
Definition carry (limit base v next : Z) : Z * Z :=
  if limit <? Z.abs v
  then let s := sign v in (((v * s) mod base) * s, next + ((v * s) / base) * s)
  else (v, next).

Definition relativedelta_of (dt1 dt2 : datetime) : option relativedelta :=
  let m0 := (year dt1 - year dt2) * 12 + (month dt1 - month dt2) in
  match adjust 2 dt1 dt2 (ltb dt1 dt2) m0 with
  | None => None
  | Some m =>
      let dtm := radd_months dt2 m in
      let delta := to_micros dt1 - to_micros dtm in
      let secs := delta / 1000000 in
      let us := delta mod 1000000 in
      let '(us, secs) := carry 999999 1000000 us secs in
      let '(secs, mins) := carry 59 60 secs 0 in
      let '(mins, hrs) := carry 59 60 mins 0 in
      let '(hrs, ds) := carry 23 24 hrs 0 in
      let '(ys, ms) := set_months m in
      Some (mkrd ys ms ds hrs mins secs us)
  end.

End Datetime.

Import Datetime.

(** ** The host the script runs on

    Everything the script reads from outside: the settings returned by
    [load_environment()], the two files it opens, the process lock, how
    subprocesses answer, the clock, and the two date routines of the
    libraries ([dateutil.parser.parse] and [strftime("%x %X")]). *)

Record world := {
  storage_root : string;                (* load_environment()["STORAGE_ROOT"] *)
  storage_user : string;                (* load_environment()["STORAGE_USER"] *)
  custom_yaml : option yaml;            (* rtyaml.load(open(custom.yaml)); None: it raised *)
  secret_key : option string;           (* f.readline() of secret_key.txt; None: open raised *)
  lock_free : bool;
  subprocess : list string -> gmap string pyval -> Z * string;  (* exit status, stdout *)
  now : datetime;
  tzname : string;
  parse_date : string -> option datetime;
  strftime_xX : datetime -> string
}.

(** ** External actions and the monad of the orchestration

    The state is the set of paths that exist (directories and the hook
    file) and the external actions performed so far, oldest first. *)

Inductive event :=
| EvLock (name : string)                              (* exclusive_process *)
| EvMove (src dst : string)                           (* shutil.move *)
| EvRmtree (path : string)                            (* shutil.rmtree *)
| EvShell (method : string) (argv : list string) (env : gmap string pyval)
| EvLogInfo (msg : string)
| EvLogWarn (msg : string) (e : exn)
| EvWait (port : Z).                                  (* wait_for_service *)

Record state := mkstate {
  paths : gset string;
  trace : list event
}.

Definition M (A : Type) : Type := state -> result A * state.

#[global] Instance M_ret : MRet M := fun A a s => (Ok a, s).
#[global] Instance M_bind : MBind M := fun A B k m s =>
  match m s with
  | (Ok a, s') => k a s'
  | (Raise e, s') => (Raise e, s')
  end.

Definition lift {A} (r : result A) : M A := fun s => (r, s).

Definition emit (ev : event) : M unit :=
  fun s => (Ok tt, mkstate (paths s) (trace s ++ [ev])%list).

(** [try: body except Exception as e: handler(e)] *)
Definition try_except {A} (body : M A) (handler : exn -> M A) : M A :=
  fun s =>
    match body s with
    | (Ok a, s') => (Ok a, s')
    | (Raise e, s') => handler e s'
    end.

(** [try: body finally: cleanup]: [cleanup] always runs; when it raises,
    its exception is the one that propagates. *)
Definition try_finally {A} (body : M A) (cleanup : M unit) : M A :=
  fun s =>
    let '(r, s1) := body s in
    match cleanup s1 with
    | (Ok _, s2) => (r, s2)
    | (Raise e, s2) => (Raise e, s2)
    end.

Definition when (b : bool) (m : M unit) : M unit :=
  if b then m else mret tt.

(** *** File system *)

Definition under (p q : string) : bool :=
  String.eqb q p || startswith q (p +:+ "/").

Definition basename (p : string) : string :=
  List.last (split_char "/" p) "".

(** [os.path.isdir] / [os.path.exists] *)
Definition path_exists (p : string) : M bool :=
  fun s => (Ok (bool_decide (p ∈ paths s)), s).

Definition rename_tree (src dst : string) (ps : gset string) : gset string :=
  filter (fun q => under src q = false) ps ∪ {[dst]}.

(** [shutil.move(src, dst)]: into [dst] when it is an existing directory,
    else a rename. *)
Definition move (src dst : string) : M unit :=
  fun s =>
    let s1 := mkstate (paths s) (trace s ++ [EvMove src dst])%list in
    if bool_decide (dst ∈ paths s) then
      let real_dst := path_join dst (basename src) in
      if bool_decide (real_dst ∈ paths s) then (Raise (IOError real_dst), s1)
      else (Ok tt, mkstate (rename_tree src real_dst (paths s)) (trace s1))
    else (Ok tt, mkstate (rename_tree src dst (paths s)) (trace s1)).

(** [shutil.rmtree(p)] *)
Definition rmtree (p : string) : M unit :=
  fun s =>
    let s1 := mkstate (paths s) (trace s ++ [EvRmtree p])%list in
    if bool_decide (p ∈ paths s)
    then (Ok tt, mkstate (filter (fun q => under p q = false) (paths s)) (trace s1))
    else (Raise (IOError p), s1).

Section Script.

Variable w : world.

(** *** Module-level settings (lines 18-32) *)

Definition backup_root : string := path_join (storage_root w) "backup".

Definition default_config : gmap string pyval :=
  <["target" := VStr ("file://" +:+ path_join backup_root "encrypted")]>
    {["min_age_in_days" := VInt 3]}.

(** *** get_backup_config (lines 342-352)

    [merged_config] is computed and then the unmerged document is
    returned, as in the source. *)
Definition get_backup_config : gmap string pyval :=
  match custom_yaml w with
  | Some (YMap config) =>
      let merged_config := config ∪ default_config in   (* .copy() then .update(config) *)
      config
  | _ => default_config
  end.

(** *** get_passphrase (lines 155-166) *)

Definition secret_key_path : string := path_join backup_root "secret_key.txt".

Definition get_passphrase : result string :=
  match secret_key w with
  | None => Raise (IOError secret_key_path)
  | Some line =>
      let passphrase := strip line in
      if Z.of_nat (String.length passphrase) <? 43 then Raise PassphraseTooShort
      else Ok passphrase
  end.

(** *** get_target_type (lines 179-181) *)
Definition get_target_type (config : gmap string pyval) : result string :=
  t ← getitem config "target";
  match t with
  | VStr s => Ok (List.hd "" (split_char ":" s))
  | _ => Raise AttributeError          (* no [split] on a non-string *)
  end.

(** *** get_env (lines 168-177) *)
Definition get_env : result (gmap string pyval) :=
  let config := get_backup_config in
  p ← get_passphrase;
  let env : gmap string pyval := {["PASSPHRASE" := VStr p]} in
  ty ← get_target_type config;
  if String.eqb ty "s3" then
    u ← getitem config "target_user";
    let env := <["AWS_ACCESS_KEY_ID" := u]> env in
    s ← getitem config "target_pass";
    let env := <["AWS_SECRET_ACCESS_KEY" := s]> env in
    Ok env
  else Ok env.

(** *** The chain and its records (what [parse_line] builds) *)

Record bak := mkbak {
  date : string;
  date_str : string;
  date_delta : string;
  full : bool;
  size : Z;
  deleted_in : option string          (* key absent until the last loop sets it *)
}.

Definition set_deleted_in (b : bak) (d : option string) : bak :=
  mkbak (date b) (date_str b) (date_delta b) (full b) (size b) d.

Definition set_deleted_in_all (d : option string) (l : list bak) : list bak :=
  (fun b => set_deleted_in b d) <$> l.

(** *** reldate (lines 45-53) *)
Definition reldate (date ref : datetime) (clip : string) : result string :=
  if ltb ref date then Ok clip else
  match relativedelta_of ref date with
  | None => Raise OutOfFuel
  | Some rd =>
      if 1 <? months rd
      then Ok (pct_d (months rd) +:+ " months, " +:+ pct_d (days rd) +:+ " days")
      else if months rd =? 1
      then Ok (pct_d (months rd) +:+ " month, " +:+ pct_d (days rd) +:+ " days")
      else if 7 <=? days rd
      then Ok (pct_d (days rd) +:+ " days")
      else if 1 <? days rd
      then Ok (pct_d (days rd) +:+ " days, " +:+ pct_d (hours rd) +:+ " hours")
      else if days rd =? 1
      then Ok (pct_d (days rd) +:+ " day, " +:+ pct_d (hours rd) +:+ " hours")
      else Ok (pct_d (hours rd) +:+ " hours, " +:+ pct_d (minutes rd) +:+ " minutes")
  end.

(** *** parse_line (lines 55-64) *)
Definition index {A} (l : list A) (i : nat) : result A :=
  match l !! i with
  | Some x => Ok x
  | None => Raise IndexError
  end.

Definition parse (s : string) : result datetime :=
  match parse_date w s with
  | Some d => Ok d
  | None => Raise ValueError
  end.

Definition parse_line (line : string) : result bak :=
  let keys := split_ws line in
  k1 ← index keys 1;
  date ← parse k1;
  let date_str := strftime_xX w date in
  date_delta ← reldate date (now w) "the future?";
  k0 ← index keys 0;
  k2 ← index keys 2;
  n ← py_int k2;
  Ok (mkbak k1 date_str date_delta (String.eqb k0 "full") (n * 250 * 1000000) None).

(** *** The loop over the status lines (lines 82-85) *)
Fixpoint parse_lines (lines : list string) (backups : gmap string bak)
  : result (gmap string bak) :=
  match lines with
  | [] => Ok backups
  | line :: rest =>
      if startswith line " full" || startswith line " inc"
      then backup ← parse_line line;
           parse_lines rest (<[date backup := backup]> backups)
      else parse_lines rest backups
  end.

(** *** sorted(backups.values(), key = date, reverse=True) (line 89) *)
Fixpoint insert_desc (b : bak) (l : list bak) : list bak :=
  match l with
  | [] => [b]
  | x :: l' => if String.ltb (date x) (date b) then b :: l else x :: insert_desc b l'
  end.

Definition sorted_desc (l : list bak) : list bak :=
  fold_left (fun acc b => insert_desc b acc) l [].

(** *** Size of the head increments and of the most recent full backup
        (lines 93-101) *)
Fixpoint scan_increments (backups : list bak) (incremental_count incremental_size : Z)
  : Z * Z * option Z :=
  match backups with
  | [] => (incremental_count, incremental_size, None)
  | b :: rest =>
      if full b then (incremental_count, incremental_size, Some (size b))
      else scan_increments rest (incremental_count + 1) (incremental_size + size b)
  end.

(** A configuration value used as a number (an operand of [+], the
    [days] of a [timedelta], the argument of ["%d"]). *)
Definition as_number (v : pyval) : result Z :=
  match v with
  | VInt z => Ok z
  | _ => Raise TypeError
  end.

(** *** The estimate shared by the head segment (lines 108-110)

    Line 110 in the order Python evaluates it: the configuration lookup,
    [.5 * first_full_size - incremental_size], the average increment, the
    quotient, the two sums, [round] and the formatting. *)
Definition predict_deleted_in (config : gmap string pyval) (backups : list bak)
  : result (option string) :=
  let '(incremental_count, incremental_size, first_full_size) :=
    scan_increments backups 0 0 in
  match first_full_size with
  | Some first_full_size =>
      if 0 <? incremental_count then
        v ← getitem config "min_age_in_days";
        full ← Float.of_int first_full_size;
        inc ← Float.of_int incremental_size;
        let ahead := Float.sub (Float.mul (Float.Finite (1 # 2)) full) inc in
        avg ← Float.true_div incremental_size incremental_count;
        increments ← Float.div ahead avg;
        min_age ← as_number v;
        min_age ← Float.of_int min_age;
        let x := Float.add (Float.add min_age increments) (Float.Finite (1 # 2)) in
        days ← Float.round x;
        Ok (Some ("approx. " +:+ pct_d days +:+ " days"))
      else Ok None
  | None => Ok None
  end.

(** [if deleted_in:] *)
Definition truthy (d : option string) : bool :=
  match d with
  | Some (String _ _) => true
  | _ => false
  end.

(** *** When will each backup be deleted (lines 113-127) *)
Fixpoint mark_deleted_in (days_ago : datetime) (backups : list bak)
    (deleted_in : option string) (saw_full : bool) : result (list bak) :=
  match backups with
  | [] => Ok []
  | b :: rest =>
      let b := if truthy deleted_in then set_deleted_in b deleted_in else b in
      if full b then
        rest' ← mark_deleted_in days_ago rest None true;
        Ok (b :: rest')
      else if saw_full && negb (truthy deleted_in) then
        d ← parse (date b);
        s ← reldate days_ago d "on next daily backup";
        rest' ← mark_deleted_in days_ago rest (Some s) saw_full;
        Ok (set_deleted_in b (Some s) :: rest')
      else
        rest' ← mark_deleted_in days_ago rest deleted_in saw_full;
        Ok (b :: rest')
  end.

(** Line 114: [now - datetime.timedelta(days=config["min_age_in_days"])]. *)
Definition days_ago (config : gmap string pyval) : result datetime :=
  v ← getitem config "min_age_in_days";
  min_age ← as_number v;
  minus_days (now w) min_age.

(** Lines 91-127 on the sorted list. *)
Definition predict (config : gmap string pyval) (backups : list bak) : result (list bak) :=
  deleted_in ← predict_deleted_in config backups;
  days_ago ← days_ago config;
  mark_deleted_in days_ago backups deleted_in false.

(** *** The loop of should_force_full (lines 140-153) *)
Fixpoint force_full_loop (backups : list bak) (inc_size : Z) : result bool :=
  match backups with
  | [] => Ok true                                (* the [else] of the [for] *)
  | b :: rest =>
      if negb (full b) then force_full_loop rest (inc_size + size b)
      else
        full_size ← Float.of_int (size b);
        Ok (Float.int_gt inc_size (Float.mul (Float.Finite (1 # 2)) full_size))
  end.

(** *** Subprocesses *)

(** A command line must consist of strings. *)
Definition as_str (v : pyval) : result string :=
  match v with
  | VStr s => Ok s
  | _ => Raise TypeError
  end.

Fixpoint strs (args : list pyval) : result (list string) :=
  match args with
  | [] => Ok []
  | v :: rest => s ← as_str v; l ← strs rest; Ok (s :: l)
  end.

(** Modelled from the spec: [utils.shell], which is not part of this file.
    It runs the command with the given environment; exit status 0 is
    success and any other status is raised as an exception (as
    [check_call] and [check_output] of [subprocess] do). *)
Definition shell (method : string) (args : list pyval) (env : gmap string pyval)
  : M string :=
  argv ← lift (strs args);
  _ ← emit (EvShell method argv env);
  let '(code, out) := subprocess w argv env in
  if code =? 0 then mret out else lift (Raise (CalledProcessError argv code)).

(** Modelled from the spec: [utils.exclusive_process] takes the process
    lock and fails at once when it is held. *)
Definition exclusive_process (name : string) : M unit :=
  _ ← emit (EvLock name);
  if lock_free w then mret tt else lift (Raise AlreadyRunning).

(** *** The command lines *)

Definition backup_cache_dir : string := path_join backup_root "cache".
Definition backup_dir : string := path_join backup_root "encrypted".

Definition status_args (config : gmap string pyval) : result (list pyval) :=
  target ← getitem config "target";
  Ok ((VStr <$> ["/usr/bin/duplicity"; "collection-status";
                 "--archive-dir"; backup_cache_dir;
                 "--log-file"; path_join backup_root "duplicity_status";
                 "--gpg-options"; "--cipher-algo=AES256";
                 "--log-fd"; "1"]) ++ [target])%list.

Definition snapshot_args (config : gmap string pyval) (full_backup : bool)
  : result (list pyval) :=
  target ← getitem config "target";
  Ok ((VStr <$> ["/usr/bin/duplicity"; if full_backup then "full" else "incr";
                 "--archive-dir"; backup_cache_dir;
                 "--asynchronous-upload";
                 "--exclude"; backup_root;
                 "--volsize"; "250";
                 "--gpg-options"; "--cipher-algo=AES256";
                 storage_root w]) ++ [target; VStr "--allow-source-mismatch"])%list.

(** ["%dD" % v] *)
Definition pct_dD (v : pyval) : result string :=
  n ← as_number v; Ok (pct_d n +:+ "D").

Definition prune_args (config : gmap string pyval) : result (list pyval) :=
  v ← getitem config "min_age_in_days";
  age ← pct_dD v;
  target ← getitem config "target";
  Ok ((VStr <$> ["/usr/bin/duplicity"; "remove-older-than"; age;
                 "--archive-dir"; backup_cache_dir; "--force"]) ++ [target])%list.

Definition cleanup_args (config : gmap string pyval) : result (list pyval) :=
  target ← getitem config "target";
  Ok ((VStr <$> ["/usr/bin/duplicity"; "cleanup";
                 "--archive-dir"; backup_cache_dir; "--force"]) ++ [target])%list.

Definition chown_args : list pyval :=
  VStr <$> ["/bin/chown"; "-R"; storage_user w; backup_dir].

Definition post_script : string := path_join backup_root "after-backup".

Definition hook_args (config : gmap string pyval) : result (list pyval) :=
  target ← getitem config "target";
  Ok ((VStr <$> ["su"; storage_user w; "-c"; post_script]) ++ [target])%list.

Definition verify_args (config : gmap string pyval) : result (list pyval) :=
  target ← getitem config "target";
  Ok ((VStr <$> ["/usr/bin/duplicity"; "--verbosity"; "info"; "verify";
                 "--compare-data"; "--archive-dir"; backup_cache_dir;
                 "--exclude"; backup_root]) ++ [target; VStr (storage_root w)])%list.

Definition service_args (name action : string) : list pyval :=
  VStr <$> ["/usr/sbin/service"; name; action].

(** *** backup_status (lines 34-134) *)

Record status := mkstatus {
  directory : string;
  encpwfile : string;
  tz : string;
  backups : list bak
}.

Definition backup_status : M status :=
  let config := get_backup_config in
  args ← lift (status_args config);
  env ← lift get_env;
  collection_status ← shell "check_output" args env;
  let collection_status := split_char (ascii_of_nat 10) collection_status in
  backups ← lift (parse_lines collection_status ∅);
  let backups := sorted_desc ((map_to_list backups).*2) in
  backups ← lift (predict config backups);
  mret (mkstatus backup_dir secret_key_path (tzname w) backups).

(** *** should_force_full (lines 136-153) *)
Definition should_force_full : M bool :=
  st ← backup_status;
  lift (force_full_loop (backups st) 0).

(** *** perform_backup (lines 183-307) *)

Definition old_backup_dir : string := path_join backup_root "duplicity".

Definition migrated_unencrypted_backup_dir : string :=
  path_join (storage_root w) "migrated_unencrypted_backup".

(** Lines 203-215: the one-time move of the old unencrypted directory. *)
Definition migrate : M unit :=
  b ← path_exists old_backup_dir;
  when b (_ ← move old_backup_dir migrated_unencrypted_backup_dir;
          rmtree backup_dir).

(** Line 221: [full_backup or should_force_full(env)]. *)
Definition select_mode (full_backup : bool) : M bool :=
  if full_backup then mret true else should_force_full.

(** Lines 224-225. *)
Definition stop_services : M unit :=
  _ ← shell "check_call" (service_args "dovecot" "stop") ∅;
  _ ← shell "check_call" (service_args "postfix" "stop") ∅;
  mret tt.

(** Lines 249-250, the [finally] block. *)
Definition start_services : M unit :=
  _ ← shell "check_call" (service_args "dovecot" "start") ∅;
  _ ← shell "check_call" (service_args "postfix" "start") ∅;
  mret tt.

(** Lines 231-244, the [try] block. *)
Definition run_snapshot (config : gmap string pyval) (full_backup : bool) : M unit :=
  args ← lift (snapshot_args config full_backup);
  env ← lift get_env;
  _ ← shell "check_call" args env;
  emit (EvLogInfo "Backup successful").

(** Lines 230-250: [try] / [except Exception] / [finally]. *)
Definition snapshot_step (config : gmap string pyval) (full_backup : bool) : M unit :=
  try_finally
    (try_except (run_snapshot config full_backup)
                (fun e => emit (EvLogWarn "Backup failed: " e)))
    start_services.

(** Lines 253-254. *)
Definition remove_migrated : M unit :=
  b ← path_exists migrated_unencrypted_backup_dir;
  when b (rmtree migrated_unencrypted_backup_dir).

(** Lines 258-269. *)
Definition prune (config : gmap string pyval) : M unit :=
  try_except
    (args ← lift (prune_args config);
     env ← lift get_env;
     _ ← shell "check_call" args env;
     mret tt)
    (fun e => emit (EvLogWarn "Removal of old backups failed: " e)).

(** Lines 276-286. *)
Definition cleanup (config : gmap string pyval) : M unit :=
  try_except
    (args ← lift (cleanup_args config);
     env ← lift get_env;
     _ ← shell "check_call" args env;
     mret tt)
    (fun e => emit (EvLogWarn "Cleanup of backups failed: " e)).

(** Lines 290-291. *)
Definition fix_ownership (config : gmap string pyval) : M unit :=
  ty ← lift (get_target_type config);
  when (String.eqb ty "file") (_ ← shell "check_call" chown_args ∅; mret tt).

(** Lines 296-300. *)
Definition run_post_script (config : gmap string pyval) : M unit :=
  b ← path_exists post_script;
  when b (args ← lift (hook_args config);
          env ← lift get_env;
          _ ← shell "check_call" args env;
          mret tt).

(** Lines 306-307.  Modelled from the spec: [utils.wait_for_service] polls
    a port for a bounded time and returns; it does not raise. *)
Definition wait_for_services : M unit :=
  _ ← emit (EvWait 25);
  emit (EvWait 993).

(** Everything after the [finally] block (lines 252-307). *)
Definition after_snapshot (config : gmap string pyval) : M unit :=
  _ ← remove_migrated;
  _ ← prune config;
  _ ← cleanup config;
  _ ← fix_ownership config;
  _ ← run_post_script config;
  wait_for_services.

(** Everything before the [try] block (lines 184-225); the value is the
    mode chosen on line 221. *)
Definition before_snapshot (full_backup : bool) : M bool :=
  _ ← exclusive_process "backup";
  _ ← migrate;
  full_backup ← select_mode full_backup;
  _ ← stop_services;
  mret full_backup.

Definition perform_backup (full_backup : bool) : M unit :=
  let config := get_backup_config in
  full_backup ← before_snapshot full_backup;
  _ ← snapshot_step config full_backup;
  after_snapshot config.

(** *** run_duplicity_verification (lines 309-323) *)
Definition run_duplicity_verification : M unit :=
  let config := get_backup_config in
  args ← lift (verify_args config);
  env ← lift get_env;
  _ ← shell "check_call" args env;
  mret tt.

End Script.

(** ** Vocabulary of the statements *)

(** Cumulative size of a run of records. *)
Definition total_size (l : list bak) : Z :=
  foldr (fun b acc => size b + acc) 0 l.

Definition inc_record (d : string) (sz : Z) : bak := mkbak d "" "" false sz None.
Definition full_record (d : string) (sz : Z) : bak := mkbak d "" "" true sz None.

(** What the configuration store is meant to hand back: the document laid
    over the defaults (the [merged_config] of lines 349-350). *)
Definition merged_config (w : world) : gmap string pyval :=
  match custom_yaml w with
  | Some (YMap config) => config ∪ default_config w
  | _ => default_config w
  end.

(** *** A concrete host

    Time stamps in duplicity's status listing look like
    [20150630T020003Z]; [parse_basic] reads exactly that shape. *)

Definition num (s : string) : option Z :=
  if forallb (fun c => bool_decide (is_Some (digit_val c))) (list_ascii_of_string s)
  then digits_val 0 false s
  else None.

Definition parse_basic (s : string) : option datetime :=
  if (String.length s =? 16)%nat then
    y ← num (substring 0 4 s); mo ← num (substring 4 2 s); d ← num (substring 6 2 s);
    h ← num (substring 9 2 s); mi ← num (substring 11 2 s); se ← num (substring 13 2 s);
    Some (mkdt y mo d h mi se 0)
  else None.

Definition is_duplicity (mode : string) (argv : list string) : bool :=
  bool_decide (argv !! 0%nat = Some "/usr/bin/duplicity") &&
  bool_decide (argv !! 1%nat = Some mode).

Definition good_key : string :=
  "0123456789abcdefghijklmnopqrstuvwxyzABCDEFGHIJKLMNOPQRSTUVWXYZ+/" +:+ nl.

Definition short_key : string := "0123456789abcdefghij" +:+ nl.

Definition status_listing : string :=
  " full 20150101T000000Z 100" +:+ nl +:+
  " inc 20150102T000000Z 10" +:+ nl +:+
  " inc 20150103T000000Z 10" +:+ nl.

(** A host with the given configuration document, key file and duplicity
    behaviour; services and the other commands succeed. *)
Definition host (doc : option yaml) (key : string)
    (duplicity : list string -> Z * string) : world :=
  {| storage_root := "/home/user-data";
     storage_user := "user-data";
     custom_yaml := doc;
     secret_key := Some key;
     lock_free := true;
     subprocess := fun argv _ =>
       if bool_decide (argv !! 0%nat = Some "/usr/bin/duplicity")
       then duplicity argv else (0, "");
     now := mkdt 2015 1 3 12 0 0 0;
     tzname := "UTC";
     parse_date := parse_basic;
     strftime_xX := fun _ => "" |}.

(** duplicity lists [listing] and succeeds at everything else. *)
Definition duplicity_ok (listing : string) (argv : list string) : Z * string :=
  if is_duplicity "collection-status" argv then (0, listing) else (0, "").

(** duplicity lists [listing] but the snapshot itself exits with status 1. *)
Definition duplicity_snapshot_fails (listing : string) (argv : list string) : Z * string :=
  if is_duplicity "collection-status" argv then (0, listing)
  else if is_duplicity "full" argv || is_duplicity "incr" argv then (1, "")
  else (0, "").

(** A configuration document written without [min_age_in_days]. *)
Definition s3_document : gmap string pyval :=
  <["target" := VStr "s3://s3.amazonaws.com/bucket/box"]>
    (<["target_user" := VStr "AKIAEXAMPLE"]>
       {["target_pass" := VStr "secret"]}).

(** A document for a remote target that is not S3. *)
Definition sftp_document : gmap string pyval :=
  <["target" := VStr "sftp://backup@example.com/box"]>
    (<["target_user" := VStr "backup"]>
       (<["target_pass" := VStr "secret"]>
          {["min_age_in_days" := VInt 3]})).


(** The state after one more external action. *)
Definition record (ev : event) (s : state) : state :=
  mkstate (paths s) (trace s ++ [ev])%list.

(** The test of line 83. *)
Definition is_record_line (line : string) : bool :=
  startswith line " full" || startswith line " inc".

(** duplicity cannot reach the target: the status query exits with 23. *)
Definition duplicity_status_fails (argv : list string) : Z * string :=
  if is_duplicity "collection-status" argv then (23, "") else (0, "").

(** What duplicity prints for a target that holds no backup yet. *)
Definition empty_listing : string :=
  "Last full backup date: none" +:+ nl +:+
  "Collection Status" +:+ nl +:+
  "No backup chains found." +:+ nl.

(** A fresh box: the backup directories exist, nothing has happened yet. *)
Definition start : state :=
  mkstate {[ "/home/user-data/backup/encrypted"; "/home/user-data/backup/cache" ]} [].

(** *** The display tiers of a relative age, in the words of the design:
        months and days from one month on, days from seven days on, days
        and hours above one day, day and hours at one day, hours and
        minutes below. *)

Inductive tier := MonthsDays | Days | DaysHours | DayHours | HoursMinutes.

(** Whole calendar months between the two dates. *)
Definition whole_months (rd : relativedelta) : Z := 12 * years rd + months rd.

Definition spec_tier (rd : relativedelta) : tier :=
  if 1 <=? whole_months rd then MonthsDays
  else if 7 <=? days rd then Days
  else if 1 <? days rd then DaysHours
  else if days rd =? 1 then DayHours
  else HoursMinutes.

Definition render (t : tier) (rd : relativedelta) : string :=
  match t with
  | MonthsDays =>
      pct_d (months rd) +:+ (if months rd =? 1 then " month, " else " months, ")
      +:+ pct_d (days rd) +:+ " days"
  | Days => pct_d (days rd) +:+ " days"
  | DaysHours => pct_d (days rd) +:+ " days, " +:+ pct_d (hours rd) +:+ " hours"
  | DayHours => pct_d (days rd) +:+ " day, " +:+ pct_d (hours rd) +:+ " hours"
  | HoursMinutes => pct_d (hours rd) +:+ " hours, " +:+ pct_d (minutes rd) +:+ " minutes"
  end.

Definition midnight (y m d : Z) : datetime := mkdt y m d 0 0 0 0.
Definition at_hour (y m d h : Z) : datetime := mkdt y m d h 0 0 0.

(** The events that belong to the snapshot itself: the duplicity run in
    full or incremental mode and the log line of its outcome. *)
Definition snapshot_event (ev : event) : bool :=
  match ev with
  | EvShell _ argv _ => is_duplicity "full" argv || is_duplicity "incr" argv
  | EvLogInfo msg => String.eqb msg "Backup successful"
  | EvLogWarn msg _ => String.eqb msg "Backup failed: "
  | _ => false
  end.

Definition service_event (name action : string) : event :=
  EvShell "check_call" ["/usr/sbin/service"; name; action] ∅.

Definition service_status (w : world) (name action : string) : Z :=
  (subprocess w ["/usr/sbin/service"; name; action] ∅).1.

(** A host on which [service dovecot start] exits with status 1; every
    other command succeeds and duplicity lists [status_listing]. *)
Definition host_dovecot_stuck : world :=
  {| storage_root := "/home/user-data";
     storage_user := "user-data";
     custom_yaml := None;
     secret_key := Some good_key;
     lock_free := true;
     subprocess := fun argv _ =>
       if bool_decide (argv = ["/usr/sbin/service"; "dovecot"; "start"]) then (1, "")
       else if is_duplicity "collection-status" argv then (0, status_listing)
       else (0, "");
     now := mkdt 2015 1 3 12 0 0 0;
     tzname := "UTC";
     parse_date := parse_basic;
     strftime_xX := fun _ => "" |}.

(** The calls of the service manager in a trace, in order: service and
    action. *)
Definition service_calls (tr : list event) : list (string * string) :=
  omap (fun ev => match ev with
                  | EvShell _ [cmd; name; action] _ =>
                      if String.eqb cmd "/usr/sbin/service" then Some (name, action)
                      else None
                  | _ => None
                  end) tr.

(** A box that still has the old unencrypted [backup/duplicity]. *)
Definition legacy_start : state :=
  mkstate {[ "/home/user-data/backup/encrypted"; "/home/user-data/backup/cache";
             "/home/user-data/backup/duplicity" ]} [].

(** Did the run log a successful snapshot?  Did it delete [p]? *)
Definition logs_success (tr : list event) : bool :=
  existsb (fun ev => match ev with
                     | EvLogInfo msg => String.eqb msg "Backup successful"
                     | _ => false
                     end) tr.

Definition deletes (p : string) (tr : list event) : bool :=
  existsb (fun ev => match ev with
                     | EvRmtree q => String.eqb q p
                     | _ => false
                     end) tr.

(** Commands handed to [shell], as opposed to locks, moves and log lines. *)
Definition is_shell (ev : event) : bool :=
  match ev with
  | EvShell _ _ _ => true
  | _ => false
  end.

(** Two increments and no full backup. *)
Definition increments_only_listing : string :=
  " inc 20150102T000000Z 10" +:+ nl +:+
  " inc 20150103T000000Z 10" +:+ nl.


(** A local target whose backups are to be kept for 800000 days, which is
    longer than the calendar goes back. *)
Definition long_keeping_document : gmap string pyval :=
  <["target" := VStr "file:///home/user-data/backup/encrypted"]>
    {["min_age_in_days" := VInt 800000]}.


(** ** Vocabulary of the further properties *)

(** [a] is not older than [b]: the order that [sorted(..., reverse=True)]
    establishes on the [date] keys. *)
Definition not_older (a b : bak) : Prop := String.le (date b) (date a).

(** A date string that sorts strictly after another one. *)
Definition later (d1 d2 : string) : Prop := String.ltb d2 d1 = true.

(** A record without its [deleted_in] entry. *)
Definition forget_deleted_in (b : bak) : bak := set_deleted_in b None.

(** No volumes at all in the increments. *)
Definition zero_listing : string :=
  " full 20150101T000000Z 100" +:+ nl +:+
  " inc 20150102T000000Z 0" +:+ nl.

(** A record line cut off after the time stamp. *)
Definition truncated_listing : string :=
  " full 20150101T000000Z 100" +:+ nl +:+
  " inc 20150102T000000Z" +:+ nl.

(** Record lines between the other lines duplicity prints. *)
Definition noisy_listing : string :=
  "Collection Status" +:+ nl +:+
  "-----------------" +:+ nl +:+
  " full 20150101T000000Z 100" +:+ nl +:+
  "Chain start time: Thu Jan  1 00:00:00 2015" +:+ nl +:+
  " inc 20150102T000000Z 10" +:+ nl +:+
  " inc 20150103T000000Z 10" +:+ nl +:+
  "No orphaned or incomplete backup sets found." +:+ nl.

(** The status query on a box with the default configuration. *)
Definition default_status_argv : list string :=
  ["/usr/bin/duplicity"; "collection-status";
   "--archive-dir"; "/home/user-data/backup/cache";
   "--log-file"; "/home/user-data/backup/duplicity_status";
   "--gpg-options"; "--cipher-algo=AES256";
   "--log-fd"; "1";
   "file:///home/user-data/backup/encrypted"].

(** Does the character occur in the string? *)
Fixpoint contains_char (c : ascii) (s : string) : bool :=
  match s with
  | EmptyString => false
  | String a s' => Ascii.eqb a c || contains_char c s'
  end.

(** A document that names a target and nothing else. *)
Definition target_only_document : gmap string pyval :=
  {["target" := VStr "file:///mnt/backup"]}.

(** A document without target. *)
Definition age_only_document : gmap string pyval :=
  {["min_age_in_days" := VInt 7]}.

(** An S3 target whose credentials were never entered. *)
Definition s3_without_credentials : gmap string pyval :=
  <["target" := VStr "s3://s3.amazonaws.com/bucket/box"]>
    {["min_age_in_days" := VInt 3]}.

(** ** Actions of a run *)

(** Running [m] only adds actions that satisfy [P] to the trace. *)
Definition emits {A} (P : event -> Prop) (m : M A) : Prop :=
  forall s, exists evs, trace (m s).2 = (trace s ++ evs)%list /\ Forall P evs.

(** The only things a backup run may do to its surroundings. *)
Definition allowed (w : world) (ev : event) : Prop :=
  match ev with
  | EvLock name => name = "backup"
  | EvMove src dst =>
      src = old_backup_dir w /\ dst = migrated_unencrypted_backup_dir w
  | EvRmtree p => p = backup_dir w \/ p = migrated_unencrypted_backup_dir w
  | EvShell _ _ env => env = ∅ \/ get_env w = Ok env
  | EvWait port => port = 25 \/ port = 993
  | EvLogInfo _ | EvLogWarn _ _ => True
  end.

(** Not a command at all, or a call of the service manager. *)
Definition no_duplicity (ev : event) : Prop :=
  match ev with
  | EvShell _ argv _ => argv !! 0%nat = Some "/usr/sbin/service"
  | _ => True
  end.

(** The service manager cannot stop postfix. *)
Definition host_postfix_stuck : world :=
  {| storage_root := "/home/user-data";
     storage_user := "user-data";
     custom_yaml := None;
     secret_key := Some good_key;
     lock_free := true;
     subprocess := fun argv _ =>
       if bool_decide (argv = ["/usr/sbin/service"; "postfix"; "stop"]) then (1, "")
       else if is_duplicity "collection-status" argv then (0, status_listing)
       else (0, "");
     now := mkdt 2015 1 3 12 0 0 0;
     tzname := "UTC";
     parse_date := parse_basic;
     strftime_xX := fun _ => "" |}.

(** Another run holds the lock. *)
Definition host_locked : world :=
  {| storage_root := "/home/user-data";
     storage_user := "user-data";
     custom_yaml := None;
     secret_key := Some good_key;
     lock_free := false;
     subprocess := fun _ _ => (0, "");
     now := mkdt 2015 1 3 12 0 0 0;
     tzname := "UTC";
     parse_date := parse_basic;
     strftime_xX := fun _ => "" |}.

(** The part of [perform_backup] that follows the lock. *)
Definition after_lock (w : world) (full_backup : bool) : M unit :=
  mode ← (_ ← migrate w; mode ← select_mode w full_backup;
          _ ← stop_services w; mret mode);
  _ ← snapshot_step w (get_backup_config w) mode;
  after_snapshot w (get_backup_config w).

(** The part of [perform_backup] up to the choice of the mode (lines
    186-221). *)
Definition until_mode (w : world) (full_backup : bool) : M bool :=
  _ ← exclusive_process w "backup";
  _ ← migrate w;
  select_mode w full_backup.

(** *** The script run from the command line (lines 368-379) *)

Definition main (w : world) (argv : list string) : M unit :=
  match last argv with
  | None => lift (Raise IndexError)                  (* sys.argv[-1] of an empty list *)
  | Some a =>
      if String.eqb a "--verify" then run_duplicity_verification w
      else perform_backup w (bool_decide ("--full" ∈ argv))
  end.

(** A run of [duplicity verify] with the environment of [get_env]. *)
Definition is_verify_call (w : world) (ev : event) : Prop :=
  exists argv env,
    ev = EvShell "check_call" argv env /\
    argv !! 0%nat = Some "/usr/bin/duplicity" /\
    argv !! 3%nat = Some "verify" /\
    get_env w = Ok env.

(** *** backup_set_custom and write_backup_config (lines 326-340, 364-366)

    [get_backup_config] hands out the module-level dictionary
    [default_config] itself when custom.yaml cannot be used, and
    [backup_set_custom] assigns into whatever it was handed.  So the state
    of one process is the current content of that dictionary together with
    what custom.yaml holds. *)

Record store := mkstore {
  defaults : gmap string pyval;     (* the module-level default_config *)
  document : option yaml            (* rtyaml.load(open(custom.yaml)); None: it raises *)
}.

(** [get_backup_config] on that state; the flag tells whether the result
    is the [default_config] object itself. *)
Definition config_of (st : store) : gmap string pyval * bool :=
  match document st with
  | Some (YMap config) => (config, false)
  | _ => (defaults st, true)
  end.

(** [if isinstance(min_age, str): min_age = int(min_age)] *)
Definition coerce_min_age (min_age : pyval) : result pyval :=
  match min_age with
  | VStr s => n ← py_int s; Ok (VInt n)
  | v => Ok v
  end.

(** Modelled from the spec: [rtyaml] and the file -- what
    [write_backup_config] dumps into custom.yaml is the mapping that a later
    [rtyaml.load] returns; the file can be written. *)
Definition write_backup_config (newconfig : gmap string pyval) (st : store) : store :=
  mkstore (defaults st) (Some (YMap newconfig)).

Definition backup_set_custom (target target_user target_pass min_age : pyval)
    (st : store) : result string * store :=
  let '(config, is_default_object) := config_of st in
  match coerce_min_age min_age with
  | Raise e => (Raise e, st)
  | Ok min_age =>
      let config := <["target" := target]> config in
      let config := <["target_user" := target_user]> config in
      let config := <["target_pass" := target_pass]> config in
      let config := <["min_age_in_days" := min_age]> config in
      let st := if is_default_object then mkstore config (document st) else st in
      (Ok "Updated backup config", write_backup_config config st)
  end.

(** The last character of a text. *)
Fixpoint last_char (s : string) : option ascii :=
  match s with
  | EmptyString => None
  | String c EmptyString => Some c
  | String _ s' => last_char s'
  end.

(** The state of a process that has just imported the module on host [w]. *)
Definition fresh_store (w : world) : store :=
  mkstore (default_config w) (custom_yaml w).

(** What [os.path.join] puts in front of a relative second argument. *)
Definition path_prefix (a : string) : string :=
  if String.eqb a "" || endswith a "/" then a else a +:+ "/".

(** A box with the old directory but without [backup/encrypted]. *)
Definition legacy_without_encrypted : state :=
  mkstate {[ "/home/user-data/backup/cache"; "/home/user-data/backup/duplicity" ]} [].

(** A box with a hook script. *)
Definition start_with_hook : state :=
  mkstate {[ "/home/user-data/backup/encrypted"; "/home/user-data/backup/cache";
             "/home/user-data/backup/after-backup" ]} [].

(** * Properties *)

(** ** Floating point: integers below 2^53 and their halves are exact *)






(** ** The full-backup policy *)



Lemma force_full_loop_no_full (chain : list bak) (inc_size : Z) :
  Forall (fun b => full b = false) chain ->
  force_full_loop chain inc_size = Ok true.
Proof.
  intros Hinc; revert inc_size.
  induction Hinc as [| b rest Hb _ IH]; intros inc_size; simpl.
  - reflexivity.
  - rewrite Hb; simpl. apply IH.
Qed.


Lemma should_force_full_run (w : world) (s : state) :
  should_force_full w s
  = match backup_status w s with
    | (Ok st, s') => (force_full_loop (backups st) 0, s')
    | (Raise e, s') => (Raise e, s')
    end.
Proof. reflexivity. Qed.

(** C3: when the chain reported by the status holds no full record -- the
    empty chain included -- [should_force_full] answers true. *)
Theorem should_force_full_without_full_record
    (w : world) (s s' : state) (st : status) :
  backup_status w s = (Ok st, s') ->
  Forall (fun b => full b = false) (backups st) ->
  should_force_full w s = (Ok true, s').
Proof.
  intros Hst Hinc. rewrite should_force_full_run, Hst.
  rewrite (force_full_loop_no_full _ 0 Hinc). reflexivity.
Qed.



Lemma should_force_full_without_full_record_witness :
  (let w := host None good_key (duplicity_ok empty_listing) in
   exists s', should_force_full w start = (Ok true, s')) /\
  (let w := host None good_key (duplicity_ok increments_only_listing) in
   exists s', should_force_full w start = (Ok true, s')).
Proof.
  split; intros w.
  - exists (backup_status w start).2.
    apply (should_force_full_without_full_record w start _
             (mkstatus (backup_dir w) (secret_key_path w) (tzname w) [])).
    + vm_compute. reflexivity.
    + constructor.
  - exists (backup_status w start).2.
    apply (should_force_full_without_full_record w start _
             (mkstatus (backup_dir w) (secret_key_path w) (tzname w)
                [mkbak "20150103T000000Z" "" "12 hours, 0 minutes" false 2500000000 None;
                 mkbak "20150102T000000Z" "" "1 day, 12 hours" false 2500000000 None])).
    + vm_compute. reflexivity.
    + repeat constructor.
Defined.


(** ** The deletion estimate *)

Lemma year_prev_day (d : datetime) :
  year d - 1 <= year (prev_day d) <= year d.
Proof.
  unfold prev_day. destruct (1 <? day d), (1 <? month d); cbn [year]; lia.
Qed.

Lemma year_iter_prev_day (k : nat) (d : datetime) :
  year d - Z.of_nat k <= year (Nat.iter k prev_day d) <= year d.
Proof.
  induction k as [| k IH]; [cbn; lia |].
  rewrite Nat.iter_succ.
  pose proof (year_prev_day (Nat.iter k prev_day d)). lia.
Qed.

(** Going back [n] days from a date of a year after [n] stays in range. *)
Lemma minus_days_in_range (d : datetime) (n : Z) :
  0 <= n < year d -> year d <= 9999 ->
  exists r, minus_days d n = Ok r.
Proof.
  intros Hn Hy. unfold minus_days.
  destruct (Z.ltb_spec 999999999 (Z.abs n)); [lia |].
  destruct (Z.leb_spec 0 n); [| lia].
  pose proof (year_iter_prev_day (Z.to_nat n) d) as Hr.
  destruct (Z.leb_spec 1 (year (Nat.iter (Z.to_nat n) prev_day d))); [| lia].
  destruct (Z.leb_spec (year (Nat.iter (Z.to_nat n) prev_day d)) 9999); [| lia].
  eexists; reflexivity.
Qed.

(** C7: for the chain made of a full backup of size 100 followed in time by
    two increments of size 10 each, with a minimum age of 3 days, no full
    backup is forced and all three records are given the estimate
    round(3 + (50 - 20) / (20 / 2) + 0.5) = round(6.5) = 6 days.  (Line
    114 computes the day three days back before the records are written;
    it exists on every clock that stands in a year after 3.) *)
Theorem scenario_full_100_two_increments
    (w : world) (config : gmap string pyval)
    (d0 d1 d2 s0 s1 s2 r0 r1 r2 : string) :
  config !! "min_age_in_days" = Some (VInt 3) ->
  let chain := [mkbak d2 s2 r2 false 10 None;
                mkbak d1 s1 r1 false 10 None;
                mkbak d0 s0 r0 true 100 None] in
  let marked := [mkbak d2 s2 r2 false 10 (Some "approx. 6 days");
                 mkbak d1 s1 r1 false 10 (Some "approx. 6 days");
                 mkbak d0 s0 r0 true 100 (Some "approx. 6 days")] in
  force_full_loop chain 0 = Ok false /\
  predict_deleted_in config chain = Ok (Some "approx. 6 days") /\
  predict w config chain
  = match minus_days (now w) 3 with
    | Ok _ => Ok marked
    | Raise e => Raise e
    end /\
  (3 < year (now w) <= 9999 -> predict w config chain = Ok marked).
Proof.
  intros Hage chain marked.
  assert (Hest : predict_deleted_in config chain = Ok (Some "approx. 6 days")).
  { unfold predict_deleted_in, chain; cbn [scan_increments full size].
    unfold getitem; rewrite Hage. vm_compute. reflexivity. }
  assert (Hrun : predict w config chain
                 = match minus_days (now w) 3 with
                   | Ok _ => Ok marked
                   | Raise e => Raise e
                   end).
  { unfold predict. rewrite Hest. unfold days_ago, getitem; rewrite Hage. cbn.
    destruct (minus_days (now w) 3); reflexivity. }
  split; [vm_compute; reflexivity |]. split; [exact Hest |]. split; [exact Hrun |].
  intros Hclock. rewrite Hrun.
  destruct (minus_days_in_range (now w) 3 ltac:(lia) ltac:(lia)) as [r ->].
  reflexivity.
Qed.

Lemma scenario_full_100_two_increments_witness :
  let w := host None good_key (duplicity_ok status_listing) in
  default_config w !! "min_age_in_days" = Some (VInt 3) /\
  force_full_loop [mkbak "20150103T000000Z" "" "" false 10 None;
                   mkbak "20150102T000000Z" "" "" false 10 None;
                   mkbak "20150101T000000Z" "" "" true 100 None] 0 = Ok false /\
  predict w (default_config w)
    [mkbak "20150103T000000Z" "" "" false 10 None;
     mkbak "20150102T000000Z" "" "" false 10 None;
     mkbak "20150101T000000Z" "" "" true 100 None]
  = Ok [mkbak "20150103T000000Z" "" "" false 10 (Some "approx. 6 days");
        mkbak "20150102T000000Z" "" "" false 10 (Some "approx. 6 days");
        mkbak "20150101T000000Z" "" "" true 100 (Some "approx. 6 days")].
Proof.
  intros w.
  refine (conj eq_refl _).
  destruct (scenario_full_100_two_increments w (default_config w)
              "20150101T000000Z" "20150102T000000Z" "20150103T000000Z"
              "" "" "" "" "" "" eq_refl) as [Hforce [_ [_ Hrun]]].
  exact (conj Hforce (Hrun ltac:(cbn; lia))).
Defined.

(** The same proportions through the whole collector: a listing of 100,
    10 and 10 volumes of 250 MB each. *)
Example backup_status_on_listing :
  let w := host None good_key (duplicity_ok status_listing) in
  (backup_status w start).1
  = Ok (mkstatus "/home/user-data/backup/encrypted"
          "/home/user-data/backup/secret_key.txt" "UTC"
          [mkbak "20150103T000000Z" "" "12 hours, 0 minutes" false 2500000000
             (Some "approx. 6 days");
           mkbak "20150102T000000Z" "" "1 day, 12 hours" false 2500000000
             (Some "approx. 6 days");
           mkbak "20150101T000000Z" "" "2 days, 12 hours" true 25000000000
             (Some "approx. 6 days")]) /\
  (should_force_full w start).1 = Ok false.
Proof. split; vm_compute; reflexivity. Qed.

(** ** The configuration store *)

Lemma get_backup_config_unreadable (w : world) :
  custom_yaml w = None \/ custom_yaml w = Some YOther ->
  get_backup_config w = default_config w /\
  default_config w !! "min_age_in_days" = Some (VInt 3) /\
  default_config w !! "target"
  = Some (VStr ("file://" +:+ path_join (backup_root w) "encrypted")).
Proof.
  intros H. split; [| split; reflexivity].
  unfold get_backup_config. destruct H as [-> | ->]; reflexivity.
Qed.

Lemma get_backup_config_mapping (w : world) (doc : gmap string pyval) :
  custom_yaml w = Some (YMap doc) -> get_backup_config w = doc.
Proof. intros H. unfold get_backup_config. rewrite H. reflexivity. Qed.

(** C6: [get_backup_config] on a document that is a mapping without
    [min_age_in_days]: the merged configuration has the default 3, the
    configuration actually returned is the bare document and has no such
    field. *)
Theorem get_backup_config_returns_unmerged :
  let w := host (Some (YMap s3_document)) good_key (duplicity_ok status_listing) in
  merged_config w !! "min_age_in_days" = Some (VInt 3) /\
  get_backup_config w = s3_document /\
  get_backup_config w !! "min_age_in_days" = None.
Proof. split; [| split]; reflexivity. Qed.

(** ** Credentials *)




(** ** Running the monad *)

Lemma run_bind {A B} (m : M A) (k : A -> M B) (s : state) :
  (m ≫= k) s
  = match m s with
    | (Ok a, s') => k a s'
    | (Raise e, s') => (Raise e, s')
    end.
Proof. reflexivity. Qed.

Lemma run_lift_bind {A B} (r : result A) (k : A -> M B) (s : state) :
  (lift r ≫= k) s
  = match r with
    | Ok a => k a s
    | Raise e => (Raise e, s)
    end.
Proof. rewrite run_bind. unfold lift. destruct r; reflexivity. Qed.

Lemma shell_run (w : world) (method : string) (args : list pyval) (argv : list string)
    (env : gmap string pyval) (s : state) :
  strs args = Ok argv ->
  shell w method args env s
  = (if (subprocess w argv env).1 =? 0 then Ok (subprocess w argv env).2
     else Raise (CalledProcessError argv (subprocess w argv env).1),
     record (EvShell method argv env) s).
Proof.
  intros Hargs. unfold shell. rewrite run_lift_bind, Hargs.
  rewrite run_bind. unfold emit. fold (record (EvShell method argv env) s).
  destruct (subprocess w argv env) as [code out]; cbn [fst snd].
  destruct (code =? 0); reflexivity.
Qed.

(** ** The status collector *)

Lemma parse_lines_no_records (w : world) (lines : list string) (acc : gmap string bak) :
  Forall (fun line => is_record_line line = false) lines ->
  parse_lines w lines acc = Ok acc.
Proof.
  induction 1 as [| line rest Hline _ IH]; cbn [parse_lines].
  - reflexivity.
  - unfold is_record_line in Hline. rewrite Hline. exact IH.
Qed.

Lemma predict_empty (w : world) (config : gmap string pyval) :
  predict w config [] = (_ ← days_ago w config; Ok []).
Proof. reflexivity. Qed.

Lemma days_ago_in_range (w : world) (config : gmap string pyval) (n : Z) :
  config !! "min_age_in_days" = Some (VInt n) ->
  0 <= n < year (now w) -> year (now w) <= 9999 ->
  exists d, days_ago w config = Ok d.
Proof.
  intros Hage Hn Hy. unfold days_ago, getitem. rewrite Hage. cbn.
  exact (minus_days_in_range (now w) n Hn Hy).
Qed.

(** C5, as the code has it: a collection-status query that exits non-zero
    makes [backup_status] raise that failure.  A query that succeeds without
    any record line raises nothing on that account: [backup_status] goes on
    to line 114, the day [min_age_in_days] days before now, and returns the
    empty chain when that day can be computed -- as it can whenever
    [min_age_in_days] is an integer from 0 up to less than the year of the
    clock, the default 3 for one -- and raises the error of that line
    otherwise. *)
Theorem backup_status_failure_or_empty_chain
    (w : world) (s : state) (args : list pyval) (argv : list string)
    (env : gmap string pyval) :
  status_args w (get_backup_config w) = Ok args ->
  strs args = Ok argv ->
  get_env w = Ok env ->
  let code := (subprocess w argv env).1 in
  let out := (subprocess w argv env).2 in
  let after := record (EvShell "check_output" argv env) s in
  let empty := mkstatus (backup_dir w) (secret_key_path w) (tzname w) [] in
  (code <> 0 ->
   backup_status w s = (Raise (CalledProcessError argv code), after)) /\
  (code = 0 ->
   Forall (fun line => is_record_line line = false) (split_char (ascii_of_nat 10) out) ->
   backup_status w s
   = (match days_ago w (get_backup_config w) with
      | Ok _ => Ok empty
      | Raise e => Raise e
      end, after) /\
   (forall n, get_backup_config w !! "min_age_in_days" = Some (VInt n) ->
      0 <= n < year (now w) -> year (now w) <= 9999 ->
      backup_status w s = (Ok empty, after))).
Proof.
  intros Hargs Hargv Henv code out after empty.
  split.
  - intros Hcode. unfold backup_status.
    rewrite run_lift_bind, Hargs, run_lift_bind, Henv, run_bind.
    rewrite (shell_run w _ args argv env s Hargv). fold code.
    destruct (Z.eqb_spec code 0); [contradiction | reflexivity].
  - intros Hcode Hlines.
    assert (Hrun : backup_status w s
                   = (match days_ago w (get_backup_config w) with
                      | Ok _ => Ok empty
                      | Raise e => Raise e
                      end, after)).
    { unfold backup_status.
      rewrite run_lift_bind, Hargs, run_lift_bind, Henv, run_bind.
      rewrite (shell_run w _ args argv env s Hargv). fold code out.
      rewrite Hcode. cbn [Z.eqb].
      rewrite run_lift_bind, (parse_lines_no_records w _ ∅ Hlines).
      rewrite map_to_list_empty. cbn [fmap list_fmap sorted_desc fold_left].
      rewrite run_lift_bind, predict_empty.
      destruct (days_ago w (get_backup_config w)); reflexivity. }
    split; [exact Hrun |].
    intros n Hage Hn Hy. rewrite Hrun.
    destruct (days_ago_in_range w _ n Hage Hn Hy) as [d ->]. reflexivity.
Qed.

Lemma backup_status_failure_or_empty_chain_witness :
  (let w := host None good_key duplicity_status_fails in
   exists argv, (backup_status w start).1 = Raise (CalledProcessError argv 23)) /\
  (let w := host None good_key (duplicity_ok empty_listing) in
   exists st, (backup_status w start).1 = Ok st /\ backups st = []).
Proof.
  split.
  - intros w.
    destruct (backup_status_failure_or_empty_chain w start _ _ _ eq_refl eq_refl eq_refl)
      as [Hfail _].
    eexists. rewrite Hfail by discriminate. reflexivity.
  - intros w.
    destruct (backup_status_failure_or_empty_chain w start _ _ _ eq_refl eq_refl eq_refl)
      as [_ Hempty].
    destruct (Hempty eq_refl ltac:(repeat constructor)) as [_ Hdefault].
    eexists. rewrite (Hdefault 3 eq_refl ltac:(cbn; lia) ltac:(cbn; lia)).
    split; reflexivity.
Defined.

(** The error of line 114 on an empty listing: 800000 days before the
    third of January 2015 there is no date. *)
Example backup_status_empty_listing_out_of_range :
  let w := host (Some (YMap long_keeping_document)) good_key (duplicity_ok empty_listing) in
  days_ago w (get_backup_config w) = Raise OverflowError /\
  (backup_status w start).1 = Raise OverflowError.
Proof. split; vm_compute; reflexivity. Qed.

(** C5 as stated does not hold: a status query that succeeds but lists no
    backup is answered with the empty chain, not with an error. *)
Lemma backup_status_empty_listing_is_no_error :
  let w := host None good_key (duplicity_ok empty_listing) in
  Forall (fun line => is_record_line line = false)
         (split_char (ascii_of_nat 10) empty_listing) /\
  (backup_status w start).1
  = Ok (mkstatus "/home/user-data/backup/encrypted"
                 "/home/user-data/backup/secret_key.txt" "UTC" []) /\
  ~ (exists e, (backup_status w start).1 = Raise e).
Proof.
  intros w.
  assert (H : (backup_status w start).1
              = Ok (mkstatus "/home/user-data/backup/encrypted"
                             "/home/user-data/backup/secret_key.txt" "UTC" []))
    by (vm_compute; reflexivity).
  split; [repeat constructor | split; [exact H |]].
  intros [e He]. rewrite H in He. discriminate.
Qed.

(** ** Relative ages *)

Lemma radd_months_index (d : datetime) (m : Z) :
  1 <= month d <= 12 ->
  12 * year (radd_months d m) + month (radd_months d m) = 12 * year d + month d + m /\
  1 <= month (radd_months d m) <= 12.
Proof.
  intros Hm. unfold radd_months, set_months, sign.
  destruct (Z.ltb_spec 11 (Z.abs m)) as [Hbig | Hsmall].
  - destruct (Z.ltb_spec m 0) as [Hneg | Hpos].
    + pose proof (Z.div_mod (m * -1) 12 ltac:(lia)) as Hdm.
      pose proof (Z.mod_pos_bound (m * -1) 12 ltac:(lia)) as Hb.
      destruct (Z.eqb_spec ((m * -1) mod 12 * -1) 0);
        [| destruct (Z.ltb_spec 12 (month d + (m * -1) mod 12 * -1));
           [| destruct (Z.ltb_spec (month d + (m * -1) mod 12 * -1) 1)]];
        cbn [year month]; lia.
    + pose proof (Z.div_mod (m * 1) 12 ltac:(lia)) as Hdm.
      pose proof (Z.mod_pos_bound (m * 1) 12 ltac:(lia)) as Hb.
      destruct (Z.eqb_spec ((m * 1) mod 12 * 1) 0);
        [| destruct (Z.ltb_spec 12 (month d + (m * 1) mod 12 * 1));
           [| destruct (Z.ltb_spec (month d + (m * 1) mod 12 * 1) 1)]];
        cbn [year month]; lia.
  - destruct (Z.eqb_spec m 0);
      [| destruct (Z.ltb_spec 12 (month d + m));
         [| destruct (Z.ltb_spec (month d + m) 1)]];
      cbn [year month]; lia.
Qed.

Lemma ltb_earlier_month (a b : datetime) :
  1 <= month a <= 12 -> 1 <= month b <= 12 ->
  12 * year a + month a < 12 * year b + month b ->
  ltb b a = false.
Proof.
  intros Ha Hb Hlt. unfold ltb, fields. cbn [lex_ltb].
  destruct (Z.ltb_spec (year b) (year a)); [lia |].
  destruct (Z.ltb_spec (year a) (year b)); [reflexivity |].
  destruct (Z.ltb_spec (month b) (month a)); [lia |].
  destruct (Z.ltb_spec (month a) (month b)); [reflexivity | lia].
Qed.

(** The adjustment loop of [relativedelta] stops after at most one step
    when the first date is not the earlier one. *)
Lemma adjust_down_terminates (dt1 dt2 : datetime) :
  1 <= month dt1 <= 12 -> 1 <= month dt2 <= 12 ->
  exists m,
    adjust 2 dt1 dt2 false ((year dt1 - year dt2) * 12 + (month dt1 - month dt2)) = Some m.
Proof.
  intros H1 H2.
  set (m0 := (year dt1 - year dt2) * 12 + (month dt1 - month dt2)).
  cbn [adjust].
  destruct (ltb dt1 (radd_months dt2 m0)); [| eauto].
  destruct (radd_months_index dt2 (m0 - 1) H2) as [Hidx Hrange].
  rewrite (ltb_earlier_month (radd_months dt2 (m0 - 1)) dt1 Hrange H1) by (unfold m0 in *; lia).
  eauto.
Qed.

Lemma relativedelta_of_total (dt1 dt2 : datetime) :
  1 <= month dt1 <= 12 -> 1 <= month dt2 <= 12 ->
  ltb dt1 dt2 = false ->
  exists rd, relativedelta_of dt1 dt2 = Some rd.
Proof.
  intros H1 H2 Hge. unfold relativedelta_of. rewrite Hge.
  destruct (adjust_down_terminates dt1 dt2 H1 H2) as [m ->].
  repeat match goal with
         | |- context [let '(_, _) := ?p in _] => destruct p
         end.
  eauto.
Qed.

(** [reldate] answers with the caller's sentinel when the reference
    precedes the date; otherwise it always produces a text, and when the
    calendar difference has no whole year that text is the one of the
    coarsest tier that applies. *)
Lemma reldate_tiers (date ref : datetime) (clip : string) :
  1 <= month date <= 12 -> 1 <= month ref <= 12 ->
  (ltb ref date = true -> reldate date ref clip = Ok clip) /\
  (ltb ref date = false ->
   exists rd, relativedelta_of ref date = Some rd /\
     (years rd = 0 -> reldate date ref clip = Ok (render (spec_tier rd) rd))).
Proof.
  intros Hd Hr. split; intros Hcmp; unfold reldate; rewrite Hcmp; [reflexivity |].
  destruct (relativedelta_of_total ref date Hr Hd Hcmp) as [rd Hrd].
  exists rd. split; [exact Hrd |]. intros Hy. rewrite Hrd.
  unfold spec_tier, whole_months, render. rewrite Hy.
  destruct (Z.ltb_spec 1 (months rd)) as [Hm | Hm].
  - destruct (Z.leb_spec 1 (12 * 0 + months rd)); [| lia].
    destruct (Z.eqb_spec (months rd) 1); [lia | reflexivity].
  - destruct (Z.eqb_spec (months rd) 1) as [Hm1 | Hm1].
    + destruct (Z.leb_spec 1 (12 * 0 + months rd)); [reflexivity | lia].
    + destruct (Z.leb_spec 1 (12 * 0 + months rd)); [lia |].
      destruct (7 <=? days rd); [reflexivity |].
      destruct (1 <? days rd); [reflexivity |].
      destruct (days rd =? 1); reflexivity.
Qed.

(** ** The orchestration *)

Lemma service_call (w : world) (name action : string) (s : state) :
  shell w "check_call" (service_args name action) ∅ s
  = (if service_status w name action =? 0
     then Ok (subprocess w ["/usr/sbin/service"; name; action] ∅).2
     else Raise (CalledProcessError ["/usr/sbin/service"; name; action]
                   (service_status w name action)),
     record (service_event name action) s).
Proof. apply shell_run. reflexivity. Qed.

Lemma start_services_run (w : world) (s : state) :
  service_status w "dovecot" "start" = 0 ->
  start_services w s
  = (if service_status w "postfix" "start" =? 0 then Ok tt
     else Raise (CalledProcessError ["/usr/sbin/service"; "postfix"; "start"]
                   (service_status w "postfix" "start")),
     record (service_event "postfix" "start")
       (record (service_event "dovecot" "start") s)).
Proof.
  intros Hd. unfold start_services.
  rewrite run_bind, service_call, Hd. cbn [Z.eqb].
  rewrite run_bind, service_call.
  destruct (service_status w "postfix" "start" =? 0); reflexivity.
Qed.

(** When [service dovecot start] itself fails, the [finally] block is left
    at once: postfix is not started. *)
Lemma start_services_dovecot_fails (w : world) (s : state) :
  service_status w "dovecot" "start" <> 0 ->
  start_services w s
  = (Raise (CalledProcessError ["/usr/sbin/service"; "dovecot"; "start"]
              (service_status w "dovecot" "start")),
     record (service_event "dovecot" "start") s).
Proof.
  intros Hd. unfold start_services.
  rewrite run_bind, service_call.
  destruct (Z.eqb_spec (service_status w "dovecot" "start") 0); [contradiction | reflexivity].
Qed.

Lemma strs_snapshot_args (w : world) (config : gmap string pyval) (mode : bool)
    (args : list pyval) (argv : list string) :
  snapshot_args w config mode = Ok args ->
  strs args = Ok argv ->
  is_duplicity "full" argv || is_duplicity "incr" argv = true.
Proof.
  unfold snapshot_args, getitem.
  destruct (config !! "target") as [t |]; [| discriminate].
  intros [= <-]. cbn [fmap list_fmap app strs as_str].
  destruct (as_str t) as [l |]; [| discriminate].
  intros [= <-]. destruct mode; reflexivity.
Qed.

(** The [try] / [except Exception] part never raises and only performs
    events of the snapshot. *)
Lemma snapshot_attempt (w : world) (config : gmap string pyval) (mode : bool) (s : state) :
  exists body,
    try_except (run_snapshot w config mode)
               (fun e => emit (EvLogWarn "Backup failed: " e)) s
    = (Ok tt, mkstate (paths s) (trace s ++ body)%list) /\
    Forall (fun ev => snapshot_event ev = true) body.
Proof.
  unfold try_except, run_snapshot.
  rewrite run_lift_bind.
  destruct (snapshot_args w config mode) as [args |] eqn:Hargs.
  2: { eexists [_]. split; [reflexivity | repeat constructor]. }
  rewrite run_lift_bind.
  destruct (get_env w) as [env |].
  2: { eexists [_]. split; [reflexivity | repeat constructor]. }
  rewrite run_bind.
  destruct (strs args) as [argv |] eqn:Hargv.
  - rewrite (shell_run w _ args argv env s Hargv).
    pose proof (strs_snapshot_args w config mode args argv Hargs Hargv) as Hsnap.
    destruct ((subprocess w argv env).1 =? 0).
    + eexists [_; _]. unfold emit, record; cbn [paths trace].
      rewrite <- app_assoc. split; [reflexivity |].
      repeat constructor. exact Hsnap.
    + eexists [_; _]. unfold emit, record; cbn [paths trace].
      rewrite <- app_assoc. split; [reflexivity |].
      repeat constructor. exact Hsnap.
  - unfold shell. rewrite run_lift_bind, Hargv.
    eexists [_]. split; [reflexivity | repeat constructor].
Qed.

(** As long as [service dovecot start] is carried out: once the run has
    stopped the services and enters the snapshot step, then whatever the
    snapshot does -- succeed, exit non-zero, or fail before duplicity is
    even started -- dovecot and postfix are started, in this order,
    directly after the events of the snapshot; the later steps run from the
    state reached after both starts, and a run that ends here (because
    starting postfix failed) ends after them too. *)
Lemma services_restarted_after_snapshot
    (w : world) (full_backup mode : bool) (s s1 : state) :
  before_snapshot w full_backup s = (Ok mode, s1) ->
  service_status w "dovecot" "start" = 0 ->
  exists body r s2,
    snapshot_step w (get_backup_config w) mode s1 = (r, s2) /\
    Forall (fun ev => snapshot_event ev = true) body /\
    trace s2 = (trace s1 ++ body
                ++ [service_event "dovecot" "start"; service_event "postfix" "start"])%list /\
    paths s2 = paths s1 /\
    perform_backup w full_backup s
    = match r with
      | Ok _ => after_snapshot w (get_backup_config w) s2
      | Raise e => (Raise e, s2)
      end /\
    (r = Ok tt <-> service_status w "postfix" "start" = 0).
Proof.
  intros Hbefore Hd.
  destruct (snapshot_attempt w (get_backup_config w) mode s1) as [body [Hrun Hbody]].
  assert (Hstep : snapshot_step w (get_backup_config w) mode s1
                  = (if service_status w "postfix" "start" =? 0 then Ok tt
                     else Raise (CalledProcessError ["/usr/sbin/service"; "postfix"; "start"]
                                   (service_status w "postfix" "start")),
                     record (service_event "postfix" "start")
                       (record (service_event "dovecot" "start")
                          (mkstate (paths s1) (trace s1 ++ body)%list)))).
  { unfold snapshot_step, try_finally. rewrite Hrun, (start_services_run w _ Hd).
    destruct (service_status w "postfix" "start" =? 0); reflexivity. }
  exists body. eexists _, _.
  split; [exact Hstep |]. split; [exact Hbody |]. split; [| split; [| split]].
  - unfold record; cbn [paths trace]. rewrite <- !app_assoc. reflexivity.
  - reflexivity.
  - unfold perform_backup. rewrite run_bind, Hbefore, run_bind, Hstep.
    destruct (service_status w "postfix" "start" =? 0); reflexivity.
  - destruct (Z.eqb_spec (service_status w "postfix" "start") 0) as [Hp | Hp].
    + split; [intros _; exact Hp | reflexivity].
    + split; [discriminate | contradiction].
Qed.

Lemma services_restarted_after_failed_snapshot :
  let w := host None good_key (duplicity_snapshot_fails status_listing) in
  exists s1 body s2,
    before_snapshot w false start = (Ok false, s1) /\
    service_status w "dovecot" "start" = 0 /\
    snapshot_step w (get_backup_config w) false s1 = (Ok tt, s2) /\
    trace s2 = (trace s1 ++ body
                ++ [service_event "dovecot" "start"; service_event "postfix" "start"])%list /\
    perform_backup w false start = after_snapshot w (get_backup_config w) s2.
Proof.
  intros w.
  assert (Hb : before_snapshot w false start
               = (Ok false, (before_snapshot w false start).2))
    by (vm_compute; reflexivity).
  destruct (services_restarted_after_snapshot w false false start _ Hb eq_refl)
    as [body [r [s2 [Hstep [_ [Htrace [_ [Hrest Hr]]]]]]]].
  rewrite (proj2 Hr eq_refl) in Hstep, Hrest.
  exists (before_snapshot w false start).2, body, s2.
  refine (conj Hb (conj eq_refl (conj Hstep (conj Htrace Hrest)))).
Defined.

(** C1: the [finally] block of lines 248-250 starts dovecot and then
    postfix, each with [check_call].  On a host where [service dovecot
    start] exits with status 1 the snapshot succeeds, [check_call] raises
    inside the [finally] block, [service postfix start] is never issued,
    and the run returns with that error: postfix stays stopped. *)
Theorem postfix_not_restarted_when_dovecot_start_fails :
  let run := perform_backup host_dovecot_stuck false start in
  run.1 = Raise (CalledProcessError ["/usr/sbin/service"; "dovecot"; "start"] 1) /\
  logs_success (trace run.2) = true /\
  service_calls (trace run.2)
  = [("dovecot", "stop"); ("postfix", "stop"); ("dovecot", "start")].
Proof. repeat split; vm_compute; reflexivity. Qed.

(** The migration moves and deletes directories; it runs no command. *)
Lemma migrate_runs_no_command (w : world) (s : state) :
  exists r ps evs,
    migrate w s = (r, mkstate ps (trace s ++ evs)%list) /\
    Forall (fun ev => is_shell ev = false) evs.
Proof.
  unfold migrate. rewrite run_bind. unfold path_exists.
  destruct (bool_decide (old_backup_dir w ∈ paths s)); cbn [when].
  2: { exists (Ok tt), (paths s), []. rewrite app_nil_r. destruct s; split; [reflexivity | constructor]. }
  rewrite run_bind. unfold move.
  destruct (bool_decide (migrated_unencrypted_backup_dir w ∈ paths s)).
  - destruct (bool_decide (_ ∈ paths s)).
    + eexists _, _, [_]. split; [reflexivity | repeat constructor].
    + unfold rmtree; cbn [paths trace].
      destruct (bool_decide (backup_dir w ∈ _));
        eexists _, _, [_; _]; rewrite <- app_assoc;
        (split; [reflexivity | repeat constructor]).
  - unfold rmtree; cbn [paths trace].
    destruct (bool_decide (backup_dir w ∈ _));
      eexists _, _, [_; _]; rewrite <- app_assoc;
      (split; [reflexivity | repeat constructor]).
Qed.

Lemma status_needs_passphrase (w : world) (s : state) :
  get_passphrase w = Raise PassphraseTooShort ->
  exists e,
    should_force_full w s = (Raise e, s) /\
    (is_Some (get_backup_config w !! "target") -> e = PassphraseTooShort).
Proof.
  intros Hkey. unfold should_force_full, backup_status.
  rewrite !run_bind. unfold lift, status_args, getitem.
  destruct (get_backup_config w !! "target") as [t |] eqn:Ht;
    cbn [mbind result_bind rbind].
  - unfold get_env. rewrite Hkey. eexists. split; [reflexivity | reflexivity].
  - eexists. split; [reflexivity |]. intros [t Ht']. discriminate.
Qed.

(** A first line that, without the blanks around it, has fewer than 43
    characters is rejected, and only such a line is. *)
Lemma get_passphrase_too_short (w : world) (line : string) :
  secret_key w = Some line ->
  ((String.length (strip line) < 43)%nat <->
   get_passphrase w = Raise PassphraseTooShort) /\
  ((43 <= String.length (strip line))%nat <->
   get_passphrase w = Ok (strip line)).
Proof.
  intros Hkey. unfold get_passphrase. rewrite Hkey.
  destruct (Z.ltb_spec (Z.of_nat (String.length (strip line))) 43).
  - split; split; intros; [reflexivity | lia | lia | discriminate].
  - split; split; intros; [lia | discriminate | reflexivity | lia].
Qed.

(** C2, as the code has it: a run that was not asked for a full backup
    queries the status before it stops anything, so with a first line that
    has, without the blanks around it, fewer than 43 characters it raises
    without having run any command; the error is the passphrase one as
    soon as the run gets as far as the query (lock free, migration done, a
    target configured). *)
Theorem short_passphrase_aborts_unforced_run (w : world) (s : state) (line : string) :
  secret_key w = Some line ->
  (String.length (strip line) < 43)%nat ->
  exists e ps evs,
    perform_backup w false s = (Raise e, mkstate ps (trace s ++ evs)%list) /\
    Forall (fun ev => is_shell ev = false) evs /\
    (lock_free w = true ->
     (migrate w (record (EvLock "backup") s)).1 = Ok tt ->
     is_Some (get_backup_config w !! "target") ->
     e = PassphraseTooShort).
Proof.
  intros Hline Hshort.
  pose proof (proj1 (proj1 (get_passphrase_too_short w line Hline)) Hshort) as Hkey.
  unfold perform_backup, before_snapshot, exclusive_process.
  rewrite !run_bind. unfold emit at 1. fold (record (EvLock "backup") s).
  destruct (lock_free w); cbn [mret M_ret lift].
  2: { eexists _, _, [_]. split; [reflexivity |].
       split; [repeat constructor | discriminate]. }
  destruct (migrate_runs_no_command w (record (EvLock "backup") s))
    as [r [ps [evs [Hmig Hevs]]]].
  rewrite !run_bind, !Hmig. cbn [record trace] in *.
  destruct r as [[] | e].
  - cbn [select_mode].
    destruct (status_needs_passphrase w (mkstate ps ((trace s ++ [EvLock "backup"]) ++ evs))
                Hkey) as [e [Hst He]].
    rewrite run_bind, Hst. exists e, ps, (EvLock "backup" :: evs).
    split; [| split].
    + rewrite <- app_assoc. reflexivity.
    + constructor; [reflexivity | exact Hevs].
    + intros _ _ Ht. exact (He Ht).
  - exists e, ps, (EvLock "backup" :: evs).
    split; [| split].
    + rewrite <- app_assoc. reflexivity.
    + constructor; [reflexivity | exact Hevs].
    + intros _ Hok. cbn in Hok. discriminate.
Qed.

Lemma short_passphrase_aborts_unforced_run_witness :
  let w := host None short_key (duplicity_ok status_listing) in
  secret_key w = Some short_key /\
  (String.length (strip short_key) < 43)%nat /\
  perform_backup w false start = (Raise PassphraseTooShort, record (EvLock "backup") start).
Proof.
  intros w.
  assert (Hshort : (String.length (strip short_key) < 43)%nat) by (vm_compute; lia).
  refine (conj eq_refl (conj Hshort _)).
  destruct (short_passphrase_aborts_unforced_run w start short_key eq_refl Hshort)
    as [e [ps [evs [Hrun [_ He]]]]].
  rewrite (He eq_refl eq_refl ltac:(eexists; reflexivity)) in Hrun.
  rewrite Hrun. vm_compute in Hrun. injection Hrun as <- <-. reflexivity.
Defined.

(** C2 as stated does not hold for a forced full backup: with a
    20-character first line the status query is skipped, both services are
    stopped, the passphrase error is raised inside the [try] blocks and
    swallowed three times, and the run ends normally. *)
Lemma short_passphrase_forced_full_run :
  let w := host None short_key (duplicity_ok status_listing) in
  get_passphrase w = Raise PassphraseTooShort /\
  perform_backup w true start
  = (Ok tt,
     mkstate (paths start)
       [EvLock "backup";
        service_event "dovecot" "stop";
        service_event "postfix" "stop";
        EvLogWarn "Backup failed: " PassphraseTooShort;
        service_event "dovecot" "start";
        service_event "postfix" "start";
        EvLogWarn "Removal of old backups failed: " PassphraseTooShort;
        EvLogWarn "Cleanup of backups failed: " PassphraseTooShort;
        EvShell "check_call"
          ["/bin/chown"; "-R"; "user-data"; "/home/user-data/backup/encrypted"] ∅;
        EvWait 25; EvWait 993]).
Proof. split; vm_compute; reflexivity. Qed.

(** [remove_migrated] does not look at the outcome of the snapshot. *)
Lemma remove_migrated_unconditional (w : world) (s : state) :
  migrated_unencrypted_backup_dir w ∈ paths s ->
  exists s', remove_migrated w s = (Ok tt, s') /\
             migrated_unencrypted_backup_dir w ∉ paths s'.
Proof.
  intros Hin. unfold remove_migrated. rewrite run_bind.
  unfold path_exists. rewrite bool_decide_eq_true_2 by exact Hin.
  cbn [when]. unfold rmtree. rewrite bool_decide_eq_true_2 by exact Hin.
  eexists. split; [reflexivity |]. cbn [paths].
  intros Hmem. apply elem_of_filter in Hmem as [Hunder _].
  unfold under in Hunder. rewrite String.eqb_refl in Hunder. discriminate.
Qed.

(** C9 when the snapshot fails: the old directory is moved away, duplicity
    exits with status 1, nothing is logged as successful, and the moved
    directory is deleted all the same. *)
Theorem migrated_directory_deleted_after_failed_snapshot :
  let w := host None good_key (duplicity_snapshot_fails status_listing) in
  let run := perform_backup w false legacy_start in
  run.1 = Ok tt /\
  logs_success (trace run.2) = false /\
  deletes "/home/user-data/migrated_unencrypted_backup" (trace run.2) = true /\
  elements (paths run.2) = ["/home/user-data/backup/cache"].
Proof. repeat split; vm_compute; reflexivity. Qed.

(** The four gaps of the design's examples, and a date in the future. *)
Lemma reldate_tiers_examples :
  let clip := "the future?" in
  reldate (midnight 2015 1 1) (midnight 2015 2 10) clip = Ok "1 month, 9 days" /\
  reldate (midnight 2015 1 1) (midnight 2015 1 9) clip = Ok "8 days" /\
  reldate (midnight 2015 1 1) (at_hour 2015 1 2 1) clip = Ok "1 day, 1 hours" /\
  reldate (midnight 2015 1 1) (at_hour 2015 1 1 3) clip = Ok "3 hours, 0 minutes" /\
  reldate (midnight 2015 1 2) (midnight 2015 1 1) clip = Ok clip.
Proof.
  intros clip.
  assert (Hm : forall y m d h, 1 <= m <= 12 -> 1 <= month (at_hour y m d h) <= 12)
    by (intros; exact H).
  assert (Hgap : forall date ref rd,
             1 <= month date <= 12 -> 1 <= month ref <= 12 ->
             ltb ref date = false ->
             relativedelta_of ref date = Some rd -> years rd = 0 ->
             reldate date ref clip = Ok (render (spec_tier rd) rd)).
  { intros date ref rd Hd Hr Hcmp Hrd Hy.
    destruct (proj2 (reldate_tiers date ref clip Hd Hr) Hcmp) as [rd' [Hrd' Hout]].
    rewrite Hrd in Hrd'. injection Hrd' as <-. exact (Hout Hy). }
  repeat apply conj.
  - exact (Hgap (midnight 2015 1 1) (midnight 2015 2 10) (mkrd 0 1 9 0 0 0 0)
             ltac:(cbn; lia) ltac:(cbn; lia) eq_refl eq_refl eq_refl).
  - exact (Hgap (midnight 2015 1 1) (midnight 2015 1 9) (mkrd 0 0 8 0 0 0 0)
             ltac:(cbn; lia) ltac:(cbn; lia) eq_refl eq_refl eq_refl).
  - exact (Hgap (midnight 2015 1 1) (at_hour 2015 1 2 1) (mkrd 0 0 1 1 0 0 0)
             ltac:(cbn; lia) ltac:(cbn; lia) eq_refl eq_refl eq_refl).
  - exact (Hgap (midnight 2015 1 1) (at_hour 2015 1 1 3) (mkrd 0 0 0 3 0 0 0)
             ltac:(cbn; lia) ltac:(cbn; lia) eq_refl eq_refl eq_refl).
  - exact (proj1 (reldate_tiers (midnight 2015 1 2) (midnight 2015 1 1) clip
                    ltac:(cbn; lia) ltac:(cbn; lia)) eq_refl).
Defined.

(** C8: the cascade of lines 48-53 reads the months and the days of the
    difference and never its years.  One year and three days after the
    date the difference is (1 year, 0 months, 3 days), a gap of twelve
    whole months, for which the coarsest tier is months and days; [reldate]
    answers in days and hours, as it does for a gap of three days. *)
Theorem reldate_ignores_whole_years :
  let date := midnight 2014 1 1 in
  let ref := midnight 2015 1 4 in
  let rd := mkrd 1 0 3 0 0 0 0 in
  ltb ref date = false /\
  relativedelta_of ref date = Some rd /\
  whole_months rd = 12 /\
  spec_tier rd = MonthsDays /\
  reldate date ref "the future?" = Ok "3 days, 0 hours" /\
  reldate date ref "the future?" <> Ok (render (spec_tier rd) rd) /\
  reldate (midnight 2015 1 1) ref "the future?" = Ok "3 days, 0 hours".
Proof.
  intros date ref rd.
  repeat apply conj; try (vm_compute; reflexivity).
  vm_compute. discriminate.
Qed.

(** * Further properties of the code *)

(** ** Order of the chain *)

Lemma ltb_false_le (a b : string) : String.ltb a b = false <-> String.le b a.
Proof.
  unfold String.le, String.ltb, String.leb. rewrite (String.compare_antisym b a).
  destruct (String.compare a b); cbn; split; intros H; try done.
Qed.

Lemma le_ne_later (a b : string) : String.le b a -> a <> b -> later a b.
Proof.
  unfold String.le, later, String.ltb, String.leb. intros Hle Hne.
  destruct (String.compare b a) eqn:Hc; try done.
  apply String.compare_eq_iff in Hc. congruence.
Qed.

Lemma insert_desc_perm (b : bak) (l : list bak) : insert_desc b l ≡ₚ b :: l.
Proof.
  induction l as [| x l IH]; cbn [insert_desc]; [done |].
  destruct (String.ltb (date x) (date b)); [done |].
  rewrite IH. apply Permutation_swap.
Qed.

Lemma insert_desc_sorted (b : bak) (l : list bak) :
  Sorted not_older l -> Sorted not_older (insert_desc b l).
Proof.
  induction 1 as [| x l Hl IH Hhd]; cbn [insert_desc].
  - repeat constructor.
  - destruct (String.ltb (date x) (date b)) eqn:Hcmp.
    + constructor; [by constructor |]. constructor.
      unfold not_older. apply ltb_false_le.
      unfold String.ltb in *. rewrite String.compare_antisym.
      destruct (String.compare (date x) (date b)); done.
    + constructor; [exact IH |].
      apply ltb_false_le in Hcmp.
      destruct Hhd as [| y l' Hxy]; cbn [insert_desc].
      * by constructor.
      * destruct (String.ltb (date y) (date b)); by constructor.
Qed.

Lemma fold_insert_desc (l acc : list bak) :
  fold_left (fun acc b => insert_desc b acc) l acc ≡ₚ l ++ acc /\
  (Sorted not_older acc ->
   Sorted not_older (fold_left (fun acc b => insert_desc b acc) l acc)).
Proof.
  revert acc. induction l as [| b l IH]; intros acc; cbn [fold_left].
  - done.
  - destruct (IH (insert_desc b acc)) as [Hperm Hsorted]. split.
    + rewrite Hperm, insert_desc_perm. symmetry. apply Permutation_middle.
    + intros Hacc. by apply Hsorted, insert_desc_sorted.
Qed.

Lemma not_older_trans : Transitive not_older.
Proof. intros a b c Hab Hbc. unfold not_older in *. by etrans. Qed.

Lemma sorted_desc_spec (l : list bak) :
  sorted_desc l ≡ₚ l /\ StronglySorted not_older (sorted_desc l).
Proof.
  destruct (fold_insert_desc l []) as [Hperm Hsorted]. split.
  - unfold sorted_desc. by rewrite Hperm, app_nil_r.
  - apply (@Sorted_StronglySorted _ not_older not_older_trans). apply Hsorted. constructor.
Qed.

(** X1: the sort of line 89 keeps exactly the records it is given and puts
    them newest first: every record is not older than any record after
    it. *)
Theorem sorted_desc_sorts (l : list bak) :
  sorted_desc l ≡ₚ l /\ StronglySorted not_older (sorted_desc l).
Proof. exact (sorted_desc_spec l). Qed.

(** ** What the prediction leaves alone *)

Lemma mark_deleted_in_keeps (w : world) (days_ago : datetime) (l out : list bak)
    (d : option string) (saw_full : bool) :
  mark_deleted_in w days_ago l d saw_full = Ok out ->
  forget_deleted_in <$> out = forget_deleted_in <$> l.
Proof.
  revert out d saw_full. induction l as [| b l IH]; intros out d saw_full; cbn [mark_deleted_in].
  - by intros [= <-].
  - assert (Hb : forget_deleted_in (if truthy d then set_deleted_in b d else b)
                 = forget_deleted_in b) by (by destruct (truthy d)).
    assert (Hfull : full (if truthy d then set_deleted_in b d else b) = full b)
      by (by destruct (truthy d)).
    rewrite Hfull. destruct (full b).
    + destruct (mark_deleted_in w days_ago l None true) as [rest |] eqn:Hrest; [| done].
      intros [= <-]. cbn [fmap list_fmap]. rewrite Hb. f_equal. by eapply IH.
    + destruct (saw_full && negb (truthy d)).
      * destruct (parse w _) as [dt |]; [| done]. cbn.
        destruct (reldate days_ago dt _) as [txt |]; [| done]. cbn.
        destruct (mark_deleted_in w days_ago l (Some txt) saw_full) as [rest |] eqn:Hrest;
          [| done].
        intros [= <-]. cbn [fmap list_fmap]. f_equal; [| by eapply IH].
        by destruct (truthy d).
      * destruct (mark_deleted_in w days_ago l d saw_full) as [rest |] eqn:Hrest; [| done].
        intros [= <-]. cbn [fmap list_fmap]. rewrite Hb. f_equal. by eapply IH.
Qed.

Lemma predict_keeps (w : world) (config : gmap string pyval)
    (chain out : list bak) :
  predict w config chain = Ok out ->
  forget_deleted_in <$> out = forget_deleted_in <$> chain /\
  length out = length chain /\
  date <$> out = date <$> chain /\
  size <$> out = size <$> chain /\
  full <$> out = full <$> chain.
Proof.
  unfold predict. intros H.
  destruct (predict_deleted_in config chain) as [d |]; [| done]. cbn in H.
  destruct (days_ago w config) as [days |]; [| done]. cbn in H.
  apply mark_deleted_in_keeps in H.
  split; [exact H |].
  split; [by rewrite <- (length_fmap forget_deleted_in out), H, length_fmap |].
  split; [| split].
  - change date with (date ∘ forget_deleted_in). by rewrite !list_fmap_compose, H.
  - change size with (size ∘ forget_deleted_in). by rewrite !list_fmap_compose, H.
  - change full with (full ∘ forget_deleted_in). by rewrite !list_fmap_compose, H.
Qed.

(** X2: the last two loops of [backup_status] only write [deleted_in]:
    whatever chain they are given, the chain they return has the same
    records in the same order with date, type and size untouched. *)
Theorem predict_keeps_records (w : world) (config : gmap string pyval)
    (chain out : list bak) :
  predict w config chain = Ok out ->
  forget_deleted_in <$> out = forget_deleted_in <$> chain /\
  length out = length chain /\
  date <$> out = date <$> chain /\
  size <$> out = size <$> chain /\
  full <$> out = full <$> chain.
Proof. apply predict_keeps. Qed.

Lemma predict_keeps_records_witness :
  let w := host None good_key (duplicity_ok status_listing) in
  let chain := [inc_record "20150103T000000Z" 10; inc_record "20150102T000000Z" 10;
                full_record "20150101T000000Z" 100] in
  exists out, predict w (default_config w) chain = Ok out /\
              size <$> out = [10; 10; 100] /\ full <$> out = [false; false; true].
Proof.
  intros w chain.
  exists (set_deleted_in_all (Some "approx. 6 days") chain).
  assert (H : predict w (default_config w) chain
              = Ok (set_deleted_in_all (Some "approx. 6 days") chain))
    by (vm_compute; reflexivity).
  split; [exact H |].
  destruct (predict_keeps_records w _ _ _ H) as [_ [_ [_ [Hs Hf]]]].
  split; [exact Hs | exact Hf].
Defined.

(** ** The chain that the status returns *)

Lemma parse_lines_keyed (w : world) (lines : list string) (acc m : gmap string bak) :
  parse_lines w lines acc = Ok m ->
  (forall k b, acc !! k = Some b -> date b = k) ->
  forall k b, m !! k = Some b -> date b = k.
Proof.
  revert acc. induction lines as [| line rest IH]; intros acc; cbn [parse_lines].
  - intros [= <-]. done.
  - destruct (startswith line " full" || startswith line " inc"); [| apply IH].
    destruct (parse_line w line) as [backup |]; [| done]. cbn.
    intros Hrest Hacc. apply (IH _ Hrest).
    intros k b. destruct (decide (date backup = k)) as [<- | Hne].
    + rewrite lookup_insert_eq. by intros [= <-].
    + rewrite lookup_insert_ne by done. apply Hacc.
Qed.

Lemma keyed_values_dates (m : gmap string bak) :
  (forall k b, m !! k = Some b -> date b = k) ->
  date <$> (map_to_list m).*2 = (map_to_list m).*1.
Proof.
  intros Hkeyed.
  assert (Hall : Forall (fun kb => date kb.2 = kb.1) (map_to_list m)).
  { apply Forall_forall. intros [k b] Hin. apply Hkeyed. by apply elem_of_map_to_list. }
  induction Hall as [| [k b] l Hkb _ IH]; [done |].
  cbn in *. by rewrite Hkb, IH.
Qed.

Lemma strongly_sorted_strict (l : list bak) :
  StronglySorted not_older l -> NoDup (date <$> l) ->
  StronglySorted later (date <$> l).
Proof.
  induction 1 as [| x l Hl IH Hx]; cbn [fmap list_fmap]; intros Hnd.
  - constructor.
  - apply NoDup_cons in Hnd as [Hnotin Hnd]. constructor; [by apply IH |].
    apply Forall_fmap, Forall_forall. intros y Hy. cbn.
    apply le_ne_later.
    + rewrite Forall_forall in Hx. by apply Hx.
    + intros Heq. apply Hnotin. rewrite Heq. by apply list_elem_of_fmap_2.
Qed.

Lemma bind_ok_inv {A B} (m : M A) (k : A -> M B) (s s' : state) (b : B) :
  (m ≫= k) s = (Ok b, s') ->
  exists a s1, m s = (Ok a, s1) /\ k a s1 = (Ok b, s').
Proof.
  rewrite run_bind. destruct (m s) as [[a | e] s1]; [eauto | done].
Qed.

Lemma lift_ok_inv {A} (r : result A) (s s1 : state) (a : A) :
  lift r s = (Ok a, s1) -> r = Ok a /\ s1 = s.
Proof. unfold lift. by intros [= -> ->]. Qed.

(** What a successful [backup_status] went through. *)
Lemma backup_status_ok_inv (w : world) (s s' : state) (st : status) :
  backup_status w s = (Ok st, s') ->
  exists args env out m,
    status_args w (get_backup_config w) = Ok args /\
    get_env w = Ok env /\
    shell w "check_output" args env s = (Ok out, s') /\
    parse_lines w (split_char (ascii_of_nat 10) out) ∅ = Ok m /\
    predict w (get_backup_config w) (sorted_desc (map_to_list m).*2) = Ok (backups st).
Proof.
  unfold backup_status. intros H.
  apply bind_ok_inv in H as (args & s1 & [Hargs ->]%lift_ok_inv & H).
  apply bind_ok_inv in H as (env & s1 & [Henv ->]%lift_ok_inv & H).
  apply bind_ok_inv in H as (out & s1 & Hshell & H).
  apply bind_ok_inv in H as (m & s2 & [Hm ->]%lift_ok_inv & H).
  apply bind_ok_inv in H as (chain & s2 & [Hchain ->]%lift_ok_inv & H).
  injection H as <- <-. cbn [backups].
  by exists args, env, out, m.
Qed.

(** X3: whenever [backup_status] returns, its chain is strictly ordered by
    date, newest first: every record's date sorts after the date of every
    record behind it, so no two records share a date. *)
Theorem backup_status_chain_sorted (w : world) (s s' : state) (st : status) :
  backup_status w s = (Ok st, s') ->
  StronglySorted later (date <$> backups st) /\ NoDup (date <$> backups st).
Proof.
  intros (args & env & out & m & _ & _ & _ & Hm & Hpredict)%backup_status_ok_inv.
  destruct (predict_keeps w _ _ _ Hpredict) as [_ [_ [Hdates _]]].
  destruct (sorted_desc_spec (map_to_list m).*2) as [Hperm Hsorted].
  assert (Hnd : NoDup (date <$> sorted_desc (map_to_list m).*2)).
  { rewrite Hperm, keyed_values_dates.
    - apply NoDup_fst_map_to_list.
    - apply (parse_lines_keyed w _ ∅ m Hm). intros k b. by rewrite lookup_empty. }
  rewrite Hdates. split; [| exact Hnd].
  by apply strongly_sorted_strict.
Qed.

Lemma backup_status_chain_sorted_witness :
  let w := host None good_key (duplicity_ok noisy_listing) in
  exists st, (backup_status w start).1 = Ok st /\
    date <$> backups st = ["20150103T000000Z"; "20150102T000000Z"; "20150101T000000Z"] /\
    StronglySorted later (date <$> backups st).
Proof.
  intros w.
  destruct (backup_status w start) as [[st |] s'] eqn:Hrun.
  - exists st. split; [reflexivity |].
    pose proof (proj1 (backup_status_chain_sorted w start s' st Hrun)) as Hsorted.
    split; [| exact Hsorted].
    assert (Hst : (backup_status w start).1 = Ok st) by (by rewrite Hrun).
    vm_compute in Hst. injection Hst as <-. reflexivity.
  - exfalso. assert (Hst : (backup_status w start).1 = Raise e) by (by rewrite Hrun).
    vm_compute in Hst. discriminate.
Defined.

(** ** The estimate of the newest segment *)

Lemma scan_increments_head (incs : list bak) (b : bak) (rest : list bak) (c sz : Z) :
  Forall (fun x => full x = false) incs ->
  full b = true ->
  scan_increments (incs ++ b :: rest) c sz
  = (c + Z.of_nat (length incs), sz + total_size incs, Some (size b)).
Proof.
  intros Hinc Hb. revert c sz.
  induction Hinc as [| x incs Hx _ IH]; intros c sz; cbn [app scan_increments].
  - rewrite Hb. cbn. by rewrite !Z.add_0_r.
  - rewrite Hx, IH.
    change (total_size (x :: incs)) with (size x + total_size incs).
    replace (c + 1 + Z.of_nat (length incs)) with (c + Z.of_nat (length (x :: incs)))
      by (cbn [length]; lia).
    by replace (sz + size x + total_size incs) with (sz + (size x + total_size incs)) by lia.
Qed.

Lemma mark_deleted_in_head (w : world) (days_ago : datetime)
    (incs : list bak) (b : bak) (rest : list bak) (d : option string) (saw_full : bool) :
  Forall (fun x => full x = false) incs ->
  full b = true ->
  truthy d = true ->
  mark_deleted_in w days_ago (incs ++ b :: rest) d saw_full
  = (older ← mark_deleted_in w days_ago rest None true;
     Ok (set_deleted_in_all d (incs ++ [b]) ++ older)%list).
Proof.
  intros Hinc Hb Hd. revert saw_full.
  induction Hinc as [| x incs Hx _ IH]; intros saw_full; cbn [app mark_deleted_in].
  - rewrite Hd. cbn [set_deleted_in full]. rewrite Hb.
    by destruct (mark_deleted_in w days_ago rest None true).
  - rewrite Hd. cbn [set_deleted_in full negb]. rewrite Hx, andb_false_r, IH.
    by destruct (mark_deleted_in w days_ago rest None true).
Qed.

Lemma predict_deleted_in_head (config : gmap string pyval)
    (incs : list bak) (b : bak) (rest : list bak) (od : option string) :
  incs <> [] ->
  Forall (fun x => full x = false) incs ->
  full b = true ->
  predict_deleted_in config (incs ++ b :: rest) = Ok od ->
  truthy od = true.
Proof.
  intros Hne Hinc Hb. unfold predict_deleted_in.
  rewrite (scan_increments_head incs b rest 0 0 Hinc Hb).
  destruct (Z.ltb_spec 0 (0 + Z.of_nat (length incs))) as [_ | Hlen].
  2: { destruct incs; [done | cbn in Hlen; lia]. }
  destruct (getitem config "min_age_in_days") as [v |]; [| done]. cbn.
  destruct (Float.of_int (size b)) as [full_size |]; [| done]. cbn.
  destruct (Float.of_int _) as [inc_size |]; [| done]. cbn.
  destruct (Float.true_div _ _) as [avg |]; [| done]. cbn.
  destruct (Float.div _ _) as [increments |]; [| done]. cbn.
  destruct (as_number v) as [n |]; [| done]. cbn.
  destruct (Float.of_int n) as [min_age |]; [| done]. cbn.
  destruct (Float.round _) as [days |]; [| done]. cbn.
  by intros [= <-].
Qed.

(** X4: when the chain starts with increments on top of a full backup,
    every one of those increments and the full backup itself carry, in
    their [deleted_in] field, one and the same estimate, the one computed
    on lines 108-110; nothing else about the chain changes, and the older
    records behind the full backup are marked as a segment of their own. *)
Theorem head_segment_shares_estimate (w : world) (config : gmap string pyval)
    (incs : list bak) (b : bak) (rest out : list bak) :
  incs <> [] ->
  Forall (fun x => full x = false) incs ->
  full b = true ->
  predict w config (incs ++ b :: rest) = Ok out ->
  exists d days,
    predict_deleted_in config (incs ++ b :: rest) = Ok (Some d) /\
    days_ago w config = Ok days /\
    Forall (fun x => deleted_in x = Some d) (take (S (length incs)) out) /\
    mark_deleted_in w days rest None true = Ok (drop (S (length incs)) out) /\
    forget_deleted_in <$> out = forget_deleted_in <$> (incs ++ b :: rest)%list.
Proof.
  intros Hne Hinc Hb Hrun.
  pose proof (predict_keeps w config _ out Hrun) as [Hkeeps _].
  revert Hrun. unfold predict.
  destruct (predict_deleted_in config (incs ++ b :: rest)) as [od |] eqn:Hod; [| done].
  pose proof (predict_deleted_in_head config incs b rest od Hne Hinc Hb Hod) as Htruthy.
  destruct od as [d |]; [| done]. cbn.
  destruct (days_ago w config) as [days |]; [| done]. cbn.
  rewrite (mark_deleted_in_head w _ incs b rest (Some d) false Hinc Hb Htruthy).
  destruct (mark_deleted_in w _ rest None true) as [older |] eqn:Holder; [| done].
  cbn. intros [= <-]. exists d, days.
  assert (Hlen : length (set_deleted_in_all (Some d) (incs ++ [b])) = S (length incs)).
  { unfold set_deleted_in_all. rewrite length_fmap, length_app. cbn. lia. }
  split; [done |]. split; [done |].
  split; [| split; [| exact Hkeeps]].
  - rewrite take_app_length' by (symmetry; exact Hlen).
    unfold set_deleted_in_all. apply Forall_fmap, Forall_true. by intros x.
  - by rewrite drop_app_length' by (symmetry; exact Hlen).
Qed.

Lemma head_segment_shares_estimate_witness :
  let w := host None good_key (duplicity_ok status_listing) in
  let incs := [inc_record "20150103T000000Z" 30; inc_record "20150102T000000Z" 20] in
  let b := full_record "20150101T000000Z" 100 in
  exists out d,
    predict w (default_config w) (incs ++ [b]) = Ok out /\
    Forall (fun x => deleted_in x = Some d) (take 3 out).
Proof.
  intros w incs b.
  destruct (predict w (default_config w) (incs ++ [b])) as [out |] eqn:Hrun.
  - destruct (head_segment_shares_estimate w (default_config w) incs b [] out
                ltac:(discriminate) ltac:(repeat constructor) eq_refl Hrun)
      as [d [days [_ [_ [Hout _]]]]].
    by exists out, d.
  - exfalso. vm_compute in Hrun. discriminate.
Defined.

Lemma zero_average (n : Z) :
  0 < n -> Float.true_div 0 n = Ok (Float.Finite 0).
Proof. intros Hn. destruct n; [lia | reflexivity | lia]. Qed.

(** X5: increments that add up to size 0 on top of a full backup make the
    estimate divide by zero: [backup_status] cannot report such a chain.
    (Only a full backup too large for a float, from [2^1024 - 2^970] bytes
    on, fails earlier in the same expression, on [.5 * first_full_size].) *)
Theorem zero_sized_increments_divide_by_zero (w : world) (config : gmap string pyval)
    (incs : list bak) (b : bak) (rest : list bak) :
  incs <> [] ->
  Forall (fun x => full x = false) incs ->
  full b = true ->
  total_size incs = 0 ->
  is_Some (config !! "min_age_in_days") ->
  predict w config (incs ++ b :: rest)
  = Raise (if 2 ^ 1024 - 2 ^ 970 <=? Z.abs (size b) then OverflowError
           else ZeroDivisionError).
Proof.
  intros Hne Hinc Hb Hzero [v Hv]. unfold predict, predict_deleted_in.
  rewrite (scan_increments_head incs b rest 0 0 Hinc Hb), Hzero.
  destruct (Z.ltb_spec 0 (0 + Z.of_nat (length incs))) as [Hlen | Hlen].
  2: { destruct incs; [done | cbn in Hlen; lia]. }
  unfold getitem. rewrite Hv. cbn [mbind result_bind rbind].
  assert (Hfull : Float.of_int (size b)
                  = if 2 ^ 1024 - 2 ^ 970 <=? Z.abs (size b) then Raise OverflowError
                    else Ok (Float.nearest (inject_Z (size b)))) by reflexivity.
  rewrite Hfull.
  destruct (2 ^ 1024 - 2 ^ 970 <=? Z.abs (size b)); [reflexivity |].
  change (0 + 0) with 0.
  change (Float.of_int 0) with (Ok (Float.Finite 0)).
  rewrite (zero_average _ Hlen). reflexivity.
Qed.

Lemma zero_sized_increments_divide_by_zero_witness :
  let w := host None good_key (duplicity_ok zero_listing) in
  predict w (default_config w)
    [inc_record "20150102T000000Z" 0; full_record "20150101T000000Z" 100]
  = Raise ZeroDivisionError /\
  (backup_status w start).1 = Raise ZeroDivisionError.
Proof.
  intros w. split.
  - exact (zero_sized_increments_divide_by_zero w (default_config w)
             [inc_record "20150102T000000Z" 0] (full_record "20150101T000000Z" 100) []
             ltac:(discriminate) ltac:(repeat constructor) eq_refl eq_refl
             ltac:(eexists; reflexivity)).
  - vm_compute. reflexivity.
Defined.

(** ** Lines of the listing *)

Lemma parse_lines_app (w : world) (l1 l2 : list string) (acc : gmap string bak) :
  parse_lines w (l1 ++ l2) acc = (m ← parse_lines w l1 acc; parse_lines w l2 m).
Proof.
  revert acc. induction l1 as [| line l1 IH]; intros acc; cbn [app parse_lines].
  - done.
  - destruct (startswith line " full" || startswith line " inc"); [| apply IH].
    destruct (parse_line w line) as [backup |]; [| done]. cbn. apply IH.
Qed.

(** A record line with fewer than three fields cannot be parsed. *)
Lemma parse_line_short (w : world) (line : string) :
  (length (split_ws line) < 3)%nat ->
  exists e, parse_line w line = Raise e.
Proof.
  unfold parse_line. destruct (split_ws line) as [| k0 [| k1 [| k2 keys]]]; cbn.
  - eauto.
  - eauto.
  - intros _. destruct (parse w k1) as [d |]; cbn; [| eauto].
    destruct (reldate d (now w) "the future?"); cbn; eauto.
  - lia.
Qed.

(** X6: a line that carries the marker of a record but cannot be parsed is
    not skipped: the error of [parse_line] ends [backup_status], whatever
    the lines before it were and whatever follows. *)
Theorem bad_record_line_fails_status
    (w : world) (s : state) (args : list pyval) (argv : list string)
    (env : gmap string pyval) (before after : list string) (bad : string)
    (m : gmap string bak) (e : exn) :
  status_args w (get_backup_config w) = Ok args ->
  strs args = Ok argv ->
  get_env w = Ok env ->
  (subprocess w argv env).1 = 0 ->
  split_char (ascii_of_nat 10) (subprocess w argv env).2 = (before ++ bad :: after)%list ->
  parse_lines w before ∅ = Ok m ->
  is_record_line bad = true ->
  parse_line w bad = Raise e ->
  backup_status w s = (Raise e, record (EvShell "check_output" argv env) s).
Proof.
  intros Hargs Hargv Henv Hcode Hlines Hbefore Hmark Hbad. unfold backup_status.
  rewrite run_lift_bind, Hargs, run_lift_bind, Henv, run_bind.
  rewrite (shell_run w _ args argv env s Hargv), Hcode. cbn [Z.eqb].
  rewrite run_lift_bind, Hlines, parse_lines_app, Hbefore.
  cbn [mbind result_bind rbind parse_lines].
  unfold is_record_line in Hmark. rewrite Hmark, Hbad. reflexivity.
Qed.

Lemma bad_record_line_fails_status_witness :
  let w := host None good_key (duplicity_ok truncated_listing) in
  exists s', backup_status w start = (Raise IndexError, s').
Proof.
  intros w. eexists.
  apply (bad_record_line_fails_status w start (VStr <$> default_status_argv)
           default_status_argv {["PASSPHRASE" := VStr (strip good_key)]}
           [" full 20150101T000000Z 100"] [""] " inc 20150102T000000Z"
           {["20150101T000000Z" :=
               mkbak "20150101T000000Z" "" "2 days, 12 hours" true 25000000000 None]}
           IndexError);
    vm_compute; reflexivity.
Defined.

(** X7: lines without the marker of a record have no influence on the
    chain: parsing a listing and parsing only its record lines give the
    same result. *)
Theorem other_lines_are_ignored (w : world) (lines : list string) (acc : gmap string bak) :
  parse_lines w (filter (fun line => is_record_line line = true) lines) acc
  = parse_lines w lines acc.
Proof.
  revert acc. induction lines as [| line lines IH]; intros acc; [done |].
  destruct (is_record_line line) eqn:Hmark.
  - rewrite filter_cons_True by done. cbn [parse_lines].
    unfold is_record_line in Hmark. rewrite Hmark.
    destruct (parse_line w line); [apply IH | done].
  - rewrite filter_cons_False by (rewrite Hmark; done). cbn [parse_lines].
    unfold is_record_line in Hmark. rewrite Hmark. apply IH.
Qed.

(** ** Missing configuration fields *)

Lemma predict_needs_min_age (w : world) (config : gmap string pyval) (chain : list bak) :
  config !! "min_age_in_days" = None ->
  predict w config chain = Raise (KeyError "min_age_in_days").
Proof.
  intros Hnone. unfold predict, predict_deleted_in, days_ago, getitem. rewrite Hnone.
  destruct (scan_increments chain 0 0) as [[c sz] [f |]]; [| done].
  by destruct (0 <? c).
Qed.

Lemma perform_backup_ok_inv (w : world) (full_backup : bool) (s s' : state) :
  perform_backup w full_backup s = (Ok tt, s') ->
  exists mode s1, before_snapshot w full_backup s = (Ok mode, s1).
Proof.
  unfold perform_backup. intros (mode & s1 & Hbefore & _)%bind_ok_inv. eauto.
Qed.

Lemma before_snapshot_ok_inv (w : world) (full_backup mode : bool) (s s1 : state) :
  before_snapshot w full_backup s = (Ok mode, s1) ->
  exists sa sb sc,
    exclusive_process w "backup" s = (Ok tt, sa) /\
    migrate w sa = (Ok tt, sb) /\
    select_mode w full_backup sb = (Ok mode, sc) /\
    stop_services w sc = (Ok tt, s1).
Proof.
  unfold before_snapshot. intros H.
  apply bind_ok_inv in H as ([] & sa & Hlock & H).
  apply bind_ok_inv in H as ([] & sb & Hmig & H).
  apply bind_ok_inv in H as (m & sc & Hmode & H).
  apply bind_ok_inv in H as ([] & sd & Hstop & H).
  injection H as <- <-. by exists sa, sb, sc.
Qed.

(** X8: with a configuration document that is a mapping without
    [min_age_in_days], the last loops of [backup_status] always raise
    KeyError; so the status never succeeds, and a backup run that was not
    forced to be full never ends normally. *)
Theorem status_needs_min_age (w : world) (doc : gmap string pyval) :
  custom_yaml w = Some (YMap doc) ->
  doc !! "min_age_in_days" = None ->
  (forall chain, predict w (get_backup_config w) chain = Raise (KeyError "min_age_in_days")) /\
  (forall s st s', backup_status w s <> (Ok st, s')) /\
  (forall s s', perform_backup w false s <> (Ok tt, s')).
Proof.
  intros Hdoc Hnone.
  assert (Hpredict : forall chain,
             predict w (get_backup_config w) chain = Raise (KeyError "min_age_in_days")).
  { intros chain. apply predict_needs_min_age.
    by rewrite (get_backup_config_mapping w doc Hdoc). }
  assert (Hstatus : forall s st s', backup_status w s <> (Ok st, s')).
  { intros s st s' (args & env & out & m & _ & _ & _ & _ & Hp)%backup_status_ok_inv.
    by rewrite Hpredict in Hp. }
  split; [exact Hpredict |]. split; [exact Hstatus |].
  intros s s' (mode & s1 & Hbefore)%perform_backup_ok_inv.
  apply before_snapshot_ok_inv in Hbefore as (sa & sb & sc & _ & _ & Hmode & _).
  cbn [select_mode] in Hmode. rewrite should_force_full_run in Hmode.
  destruct (backup_status w sb) as [[st |] sd] eqn:Hst; [| done].
  by eapply Hstatus.
Qed.

Lemma status_needs_min_age_witness :
  let w := host (Some (YMap target_only_document)) good_key (duplicity_ok status_listing) in
  (backup_status w start).1 = Raise (KeyError "min_age_in_days") /\
  (perform_backup w false start).1 = Raise (KeyError "min_age_in_days").
Proof.
  intros w.
  pose proof (status_needs_min_age w target_only_document eq_refl eq_refl)
    as [_ [Hstatus Hrun]].
  split.
  - destruct (backup_status w start) as [[st |] s'] eqn:Hst; [by destruct (Hstatus _ _ _ Hst) |].
    assert (H : (backup_status w start).1 = Raise e) by (by rewrite Hst).
    vm_compute in H. by injection H as <-.
  - destruct (perform_backup w false start) as [[[] |] s'] eqn:Hp;
      [by destruct (Hrun _ _ Hp) |].
    assert (H : (perform_backup w false start).1 = Raise e) by (by rewrite Hp).
    vm_compute in H. by injection H as <-.
Defined.

(** X9: with a configuration document that is a mapping without [target],
    the status query and the verification raise KeyError before any
    command is run. *)
Theorem commands_need_target (w : world) (doc : gmap string pyval) (s : state) :
  custom_yaml w = Some (YMap doc) ->
  doc !! "target" = None ->
  backup_status w s = (Raise (KeyError "target"), s) /\
  should_force_full w s = (Raise (KeyError "target"), s) /\
  run_duplicity_verification w s = (Raise (KeyError "target"), s).
Proof.
  intros Hdoc Hnone.
  assert (Hst : backup_status w s = (Raise (KeyError "target"), s)).
  { unfold backup_status. rewrite run_lift_bind.
    unfold status_args, getitem. rewrite (get_backup_config_mapping w doc Hdoc), Hnone.
    reflexivity. }
  split; [exact Hst |]. split.
  - by rewrite should_force_full_run, Hst.
  - unfold run_duplicity_verification. rewrite run_lift_bind.
    unfold verify_args, getitem. rewrite (get_backup_config_mapping w doc Hdoc), Hnone.
    reflexivity.
Qed.

Lemma commands_need_target_witness :
  let w := host (Some (YMap age_only_document)) good_key (duplicity_ok status_listing) in
  backup_status w start = (Raise (KeyError "target"), start).
Proof.
  intros w. exact (proj1 (commands_need_target w age_only_document start eq_refl eq_refl)).
Defined.

(** ** The scheme of the target *)

Lemma split_char_aux_head (sep : ascii) (s1 rest cur : string) :
  contains_char sep s1 = false ->
  List.hd "" (split_char_aux sep cur (s1 +:+ String sep rest))
  = String.rev_app cur s1.
Proof.
  revert cur. induction s1 as [| a s1 IH]; intros cur Hfree.
  - unfold String.append. cbn [split_char_aux]. rewrite Ascii.eqb_refl. reflexivity.
  - cbn [contains_char] in Hfree. apply orb_false_elim in Hfree as [Ha Hfree].
    unfold String.append; fold String.append. cbn [split_char_aux]. rewrite Ha.
    rewrite IH by done. reflexivity.
Qed.

Lemma split_char_aux_whole (sep : ascii) (s cur : string) :
  contains_char sep s = false ->
  split_char_aux sep cur s = [String.rev_app cur s].
Proof.
  revert cur. induction s as [| a s IH]; intros cur Hfree.
  - reflexivity.
  - cbn [contains_char] in Hfree. apply orb_false_elim in Hfree as [Ha Hfree].
    cbn [split_char_aux]. rewrite Ha. by rewrite IH.
Qed.

(** X10: [get_target_type] answers with the text before the first colon
    of the target, and with the whole target when it has no colon; for the
    built-in default target that is ["file"], whatever the storage root. *)
Theorem get_target_type_is_scheme (w : world) (config : gmap string pyval)
    (scheme rest : string) :
  contains_char ":" scheme = false ->
  (config !! "target" = Some (VStr (scheme +:+ ":" +:+ rest)) ->
   get_target_type config = Ok scheme) /\
  (config !! "target" = Some (VStr scheme) -> get_target_type config = Ok scheme) /\
  get_target_type (default_config w) = Ok "file".
Proof.
  intros Hfree.
  assert (Hcolon : forall c r, contains_char ":" scheme = false ->
             c !! "target" = Some (VStr (scheme +:+ ":" +:+ r)) ->
             get_target_type c = Ok scheme).
  { intros c r Hf Ht. unfold get_target_type, getitem. rewrite Ht.
    cbn [mbind result_bind rbind]. unfold split_char.
    change (":" +:+ r) with (String ":" r).
    by rewrite split_char_aux_head. }
  split; [by apply Hcolon |]. split.
  - intros Ht. unfold get_target_type, getitem. rewrite Ht.
    cbn [mbind result_bind rbind]. unfold split_char.
    by rewrite split_char_aux_whole.
  - unfold get_target_type, getitem, default_config.
    rewrite lookup_insert_eq. cbn [mbind result_bind rbind]. unfold split_char.
    change ("file://" +:+ path_join (backup_root w) "encrypted")
      with ("file" +:+ String ":" ("//" +:+ path_join (backup_root w) "encrypted")).
    by rewrite split_char_aux_head.
Qed.

Lemma get_target_type_is_scheme_witness :
  let w := host None good_key (duplicity_ok status_listing) in
  contains_char ":" "sftp" = false /\
  get_target_type sftp_document = Ok "sftp".
Proof.
  intros w. split; [reflexivity |].
  exact (proj1 (get_target_type_is_scheme w sftp_document "sftp" "//backup@example.com/box"
                  eq_refl) eq_refl).
Defined.

(** X11: an S3 target without [target_user] (or, with it, without
    [target_pass]) makes [get_env] raise KeyError, and with it the status
    query, before any command is run. *)
Theorem s3_needs_credentials (w : world) (p : string) (s : state) :
  get_passphrase w = Ok p ->
  get_target_type (get_backup_config w) = Ok "s3" ->
  (get_backup_config w !! "target_user" = None ->
   get_env w = Raise (KeyError "target_user") /\
   backup_status w s = (Raise (KeyError "target_user"), s)) /\
  (is_Some (get_backup_config w !! "target_user") ->
   get_backup_config w !! "target_pass" = None ->
   get_env w = Raise (KeyError "target_pass") /\
   backup_status w s = (Raise (KeyError "target_pass"), s)).
Proof.
  intros Hkey Hty.
  assert (Htarget : exists args, status_args w (get_backup_config w) = Ok args).
  { unfold status_args, getitem. unfold get_target_type, getitem in Hty.
    destruct (get_backup_config w !! "target"); [eauto | done]. }
  destruct Htarget as [args Hargs].
  assert (Hstatus : forall e, get_env w = Raise e -> backup_status w s = (Raise e, s)).
  { intros e He. unfold backup_status.
    by rewrite run_lift_bind, Hargs, run_lift_bind, He. }
  split.
  - intros Hnone.
    assert (He : get_env w = Raise (KeyError "target_user")).
    { unfold get_env. rewrite Hkey. cbn [mbind result_bind rbind]. rewrite Hty.
      cbn [mbind result_bind rbind String.eqb Ascii.eqb Bool.eqb].
      unfold getitem. by rewrite Hnone. }
    split; [exact He | by apply Hstatus].
  - intros [u Hu] Hnone.
    assert (He : get_env w = Raise (KeyError "target_pass")).
    { unfold get_env. rewrite Hkey. cbn [mbind result_bind rbind]. rewrite Hty.
      cbn [mbind result_bind rbind String.eqb Ascii.eqb Bool.eqb].
      unfold getitem. by rewrite Hu, Hnone. }
    split; [exact He | by apply Hstatus].
Qed.

Lemma s3_needs_credentials_witness :
  let w := host (Some (YMap s3_without_credentials)) good_key (duplicity_ok status_listing) in
  get_env w = Raise (KeyError "target_user") /\
  backup_status w start = (Raise (KeyError "target_user"), start).
Proof.
  intros w.
  exact (proj1 (s3_needs_credentials w (strip good_key) start eq_refl eq_refl) eq_refl).
Defined.

(** ** What a run does, action by action *)

Section Emits.

Context (P : event -> Prop).

Lemma emits_ret {A} (a : A) : emits P (mret a : M A).
Proof. intros s. exists []. by rewrite app_nil_r. Qed.

Lemma emits_lift {A} (r : result A) : emits P (lift r).
Proof. intros s. exists []. by rewrite app_nil_r. Qed.

Lemma emits_emit (ev : event) : P ev -> emits P (emit ev).
Proof. intros Hev s. exists [ev]. split; [done | by constructor]. Qed.

Lemma emits_bind {A B} (m : M A) (k : A -> M B) :
  emits P m -> (forall a, emits P (k a)) -> emits P (m ≫= k).
Proof.
  intros Hm Hk s. rewrite run_bind.
  destruct (Hm s) as [evs [Htrace Hevs]].
  destruct (m s) as [[a | e] s1]; cbn [snd] in *.
  - destruct (Hk a s1) as [evs' [Htrace' Hevs']].
    exists (evs ++ evs')%list. rewrite Htrace', Htrace, app_assoc.
    split; [done | by apply Forall_app].
  - by exists evs.
Qed.

Lemma emits_lift_bind {A B} (r : result A) (k : A -> M B) :
  (forall a, r = Ok a -> emits P (k a)) -> emits P (lift r ≫= k).
Proof.
  intros Hk s. rewrite run_lift_bind. destruct r as [a | e].
  - by apply Hk.
  - exists []. by rewrite app_nil_r.
Qed.

Lemma emits_try_except {A} (body : M A) (handler : exn -> M A) :
  emits P body -> (forall e, emits P (handler e)) -> emits P (try_except body handler).
Proof.
  intros Hbody Hhandler s. unfold try_except.
  destruct (Hbody s) as [evs [Htrace Hevs]].
  destruct (body s) as [[a | e] s1]; cbn [snd] in *.
  - by exists evs.
  - destruct (Hhandler e s1) as [evs' [Htrace' Hevs']].
    exists (evs ++ evs')%list. rewrite Htrace', Htrace, app_assoc.
    split; [done | by apply Forall_app].
Qed.

Lemma emits_try_finally {A} (body : M A) (final : M unit) :
  emits P body -> emits P final -> emits P (try_finally body final).
Proof.
  intros Hbody Hfinal s. unfold try_finally.
  destruct (Hbody s) as [evs [Htrace Hevs]].
  destruct (body s) as [r s1]; cbn [snd] in *.
  destruct (Hfinal s1) as [evs' [Htrace' Hevs']].
  exists (evs ++ evs')%list.
  destruct (final s1) as [[[] | e] s2]; cbn [snd] in *;
    rewrite Htrace', Htrace, app_assoc; (split; [done | by apply Forall_app]).
Qed.

Lemma emits_when (b : bool) (m : M unit) : emits P m -> emits P (when b m).
Proof. destruct b; [done |]. intros _. apply emits_ret. Qed.

Lemma emits_path_exists (p : string) : emits P (path_exists p).
Proof. intros s. exists []. by rewrite app_nil_r. Qed.

Lemma emits_move (src dst : string) : P (EvMove src dst) -> emits P (move src dst).
Proof.
  intros Hev s. exists [EvMove src dst]. split; [| by constructor].
  unfold move. repeat case_bool_decide; done.
Qed.

Lemma emits_rmtree (p : string) : P (EvRmtree p) -> emits P (rmtree p).
Proof.
  intros Hev s. exists [EvRmtree p]. split; [| by constructor].
  unfold rmtree. case_bool_decide; done.
Qed.

Lemma emits_shell (w : world) (method : string) (args : list pyval)
    (env : gmap string pyval) :
  (forall argv, strs args = Ok argv -> P (EvShell method argv env)) ->
  emits P (shell w method args env).
Proof.
  intros Hev. unfold shell. apply emits_lift_bind. intros argv Hargv.
  apply emits_bind; [apply emits_emit; by apply Hev |].
  intros []. destruct (subprocess w argv env) as [code out].
  destruct (code =? 0); [apply emits_ret | apply emits_lift].
Qed.

End Emits.

Lemma strs_service_args (name action : string) :
  strs (service_args name action) = Ok ["/usr/sbin/service"; name; action].
Proof. reflexivity. Qed.

Lemma backup_status_emits (w : world) (P : event -> Prop) :
  (forall method argv env, get_env w = Ok env -> P (EvShell method argv env)) ->
  emits P (backup_status w).
Proof.
  intros Hshell. unfold backup_status.
  apply emits_lift_bind. intros args _.
  apply emits_lift_bind. intros env Henv.
  apply emits_bind; [apply emits_shell; intros; by apply Hshell |]. intros out.
  apply emits_lift_bind. intros m _.
  apply emits_lift_bind. intros chain _.
  apply emits_ret.
Qed.

Lemma guarded_call_emits (w : world) (P : event -> Prop)
    (args : result (list pyval)) (msg : string) :
  (forall method argv env, get_env w = Ok env -> P (EvShell method argv env)) ->
  (forall e, P (EvLogWarn msg e)) ->
  emits P (try_except
             (args ← lift args; env ← lift (get_env w);
              _ ← shell w "check_call" args env; mret tt)
             (fun e => emit (EvLogWarn msg e))).
Proof.
  intros Hshell Hwarn. apply emits_try_except.
  - apply emits_lift_bind. intros a _.
    apply emits_lift_bind. intros env Henv.
    apply emits_bind; [apply emits_shell; intros; by apply Hshell |].
    intros _. apply emits_ret.
  - intros e. by apply emits_emit.
Qed.

Lemma service_call_emits_allowed (w : world) (name action : string) :
  emits (allowed w) (shell w "check_call" (service_args name action) ∅).
Proof. apply emits_shell. intros; by left. Qed.

Lemma after_lock_emits_allowed (w : world) (full_backup : bool) :
  emits (allowed w)
    (_ ← migrate w; mode ← select_mode w full_backup; _ ← stop_services w; mret mode).
Proof.
  apply emits_bind.
  { unfold migrate. apply emits_bind; [apply emits_path_exists |].
    intros b. apply emits_when. apply emits_bind; [by apply emits_move |].
    intros _. apply emits_rmtree. by left. }
  intros _. apply emits_bind.
  { destruct full_backup; cbn [select_mode]; [apply emits_ret |].
    unfold should_force_full. apply emits_bind.
    - apply backup_status_emits. intros; by right.
    - intros st. apply emits_lift. }
  intros mode. apply emits_bind.
  { unfold stop_services. apply emits_bind; [apply service_call_emits_allowed |].
    intros _. apply emits_bind; [apply service_call_emits_allowed |].
    intros _; apply emits_ret. }
  intros _. apply emits_ret.
Qed.


Lemma snapshot_step_emits_allowed (w : world) (config : gmap string pyval) (mode : bool) :
  emits (allowed w) (snapshot_step w config mode).
Proof.
  unfold snapshot_step. apply emits_try_finally.
  - apply emits_try_except.
    + unfold run_snapshot. apply emits_lift_bind. intros args _.
      apply emits_lift_bind. intros env He.
      apply emits_bind; [apply emits_shell; intros; by right |].
      intros _. by apply emits_emit.
    + intros e. by apply emits_emit.
  - unfold start_services. apply emits_bind; [apply service_call_emits_allowed |].
    intros _. apply emits_bind; [apply service_call_emits_allowed |].
    intros _; apply emits_ret.
Qed.

Lemma after_snapshot_emits_allowed (w : world) (config : gmap string pyval) :
  emits (allowed w) (after_snapshot w config).
Proof.
  assert (Henv : forall method argv env,
             get_env w = Ok env -> allowed w (EvShell method argv env))
    by (intros; by right).
  unfold after_snapshot.
  apply emits_bind.
  { unfold remove_migrated. apply emits_bind; [apply emits_path_exists |].
    intros b. apply emits_when, emits_rmtree. by right. }
  intros _. apply emits_bind; [by apply guarded_call_emits |].
  intros _. apply emits_bind; [by apply guarded_call_emits |].
  intros _. apply emits_bind.
  { unfold fix_ownership. apply emits_lift_bind. intros ty _. apply emits_when.
    apply emits_bind; [| intros _; apply emits_ret].
    apply emits_shell. intros; by left. }
  intros _. apply emits_bind.
  { unfold run_post_script. apply emits_bind; [apply emits_path_exists |].
    intros b. apply emits_when.
    apply emits_lift_bind. intros args _.
    apply emits_lift_bind. intros env He.
    apply emits_bind; [apply emits_shell; intros; by apply Henv |].
    intros _. apply emits_ret. }
  intros _. unfold wait_for_services.
  apply emits_bind; [apply emits_emit; by left |].
  intros _. apply emits_emit. by right.
Qed.






(** ** The lock and the stop/start bracket *)

Lemma bind_assoc_run {A B C} (m : M A) (k : A -> M B) (h : B -> M C) (s : state) :
  ((m ≫= k) ≫= h) s = (m ≫= (fun a => k a ≫= h)) s.
Proof. rewrite !run_bind. by destruct (m s) as [[a | e] s1]. Qed.

Lemma exclusive_process_run (w : world) (name : string) (s : state) :
  exclusive_process w name s
  = (if lock_free w then Ok tt else Raise AlreadyRunning, record (EvLock name) s).
Proof.
  unfold exclusive_process. rewrite run_bind. unfold emit.
  fold (record (EvLock name) s). by destruct (lock_free w).
Qed.

Lemma perform_backup_after_lock (w : world) (full_backup : bool) (s : state) :
  perform_backup w full_backup s
  = if lock_free w then after_lock w full_backup (record (EvLock "backup") s)
    else (Raise AlreadyRunning, record (EvLock "backup") s).
Proof.
  unfold perform_backup, before_snapshot.
  rewrite bind_assoc_run, run_bind, exclusive_process_run.
  by destruct (lock_free w).
Qed.

Lemma after_lock_emits_all (w : world) (full_backup : bool) :
  emits (allowed w) (after_lock w full_backup).
Proof.
  unfold after_lock.
  apply emits_bind; [apply after_lock_emits_allowed |].
  intros mode. apply emits_bind; [apply snapshot_step_emits_allowed |].
  intros _. apply after_snapshot_emits_allowed.
Qed.

(** X14: every backup run begins by taking the lock "backup"; when the
    lock is held the run ends there with AlreadyRunning and has done
    nothing else. *)
Theorem lock_comes_first (w : world) (full_backup : bool) (s : state) :
  (exists evs,
     trace (perform_backup w full_backup s).2 = (trace s ++ EvLock "backup" :: evs)%list) /\
  (lock_free w = false ->
   perform_backup w full_backup s = (Raise AlreadyRunning, record (EvLock "backup") s)).
Proof.
  rewrite perform_backup_after_lock. split.
  - destruct (lock_free w).
    + destruct (after_lock_emits_all w full_backup (record (EvLock "backup") s))
        as [evs [Htrace _]].
      exists evs. rewrite Htrace. cbn [record trace]. by rewrite <- app_assoc.
    + by exists [].
  - by intros ->.
Qed.

Lemma lock_comes_first_witness :
  perform_backup host_locked true start = (Raise AlreadyRunning, record (EvLock "backup") start).
Proof. exact (proj2 (lock_comes_first host_locked true start) eq_refl). Defined.

(** X15: a run that is forced to be full asks duplicity nothing before the
    snapshot: up to and including the stopping of the services it runs no
    command except calls of the service manager. *)
Theorem forced_run_skips_status (w : world) (s : state) :
  exists evs,
    trace (before_snapshot w true s).2 = (trace s ++ evs)%list /\
    Forall no_duplicity evs.
Proof.
  assert (Hservice : forall name action,
             emits no_duplicity (shell w "check_call" (service_args name action) ∅)).
  { intros. apply emits_shell. intros argv. rewrite strs_service_args. by intros [= <-]. }
  apply (emits_bind no_duplicity).
  { unfold exclusive_process. apply emits_bind; [by apply emits_emit |].
    intros []. destruct (lock_free w); [apply emits_ret | apply emits_lift]. }
  intros _. apply emits_bind.
  { unfold migrate. apply emits_bind; [apply emits_path_exists |].
    intros b. apply emits_when. apply emits_bind; [by apply emits_move |].
    intros _. by apply emits_rmtree. }
  intros _. apply emits_bind; [apply emits_ret |].
  intros mode. apply emits_bind.
  { unfold stop_services. apply emits_bind; [apply Hservice |].
    intros _. apply emits_bind; [apply Hservice | intros _; apply emits_ret]. }
  intros _. apply emits_ret.
Qed.

Lemma stop_services_run (w : world) (s : state) :
  service_status w "dovecot" "stop" = 0 ->
  stop_services w s
  = (if service_status w "postfix" "stop" =? 0 then Ok tt
     else Raise (CalledProcessError ["/usr/sbin/service"; "postfix"; "stop"]
                   (service_status w "postfix" "stop")),
     record (service_event "postfix" "stop")
       (record (service_event "dovecot" "stop") s)).
Proof.
  intros Hd. unfold stop_services.
  rewrite run_bind, service_call, Hd. cbn [Z.eqb].
  rewrite run_bind, service_call.
  by destruct (service_status w "postfix" "stop" =? 0).
Qed.

Lemma stop_services_ok_inv (w : world) (s s1 : state) :
  stop_services w s = (Ok tt, s1) ->
  service_status w "dovecot" "stop" = 0 /\
  service_status w "postfix" "stop" = 0 /\
  s1 = record (service_event "postfix" "stop") (record (service_event "dovecot" "stop") s).
Proof.
  destruct (Z.eqb_spec (service_status w "dovecot" "stop") 0) as [Hd | Hd].
  - rewrite (stop_services_run w s Hd).
    destruct (Z.eqb_spec (service_status w "postfix" "stop") 0); [| done].
    by intros [= <-].
  - unfold stop_services. rewrite run_bind, service_call.
    by destruct (Z.eqb_spec (service_status w "dovecot" "stop") 0).
Qed.

Lemma perform_backup_until_mode (w : world) (full_backup : bool) (s : state) :
  perform_backup w full_backup s
  = (mode ← until_mode w full_backup;
     _ ← (_ ← stop_services w; mret mode);
     _ ← snapshot_step w (get_backup_config w) mode;
     after_snapshot w (get_backup_config w)) s.
Proof.
  unfold perform_backup, before_snapshot, until_mode.
  rewrite !run_bind.
  destruct (exclusive_process w "backup" s) as [[[] | e] sa]; [| done].
  rewrite !run_bind.
  destruct (migrate w sa) as [[[] | e] sb]; [| done].
  rewrite !run_bind.
  destruct (select_mode w full_backup sb) as [[mode | e] sc]; [| done].
  rewrite !run_bind.
  destruct (stop_services w sc) as [[[] | e] sd]; [| done].
  reflexivity.
Qed.

(** X16: when dovecot has been stopped and stopping postfix fails, the
    run ends with that failure at once: no snapshot is made and no service
    is started again, dovecot included. *)
Theorem failed_postfix_stop_leaves_dovecot_stopped
    (w : world) (full_backup mode : bool) (s sc : state) :
  until_mode w full_backup s = (Ok mode, sc) ->
  service_status w "dovecot" "stop" = 0 ->
  service_status w "postfix" "stop" <> 0 ->
  perform_backup w full_backup s
  = (Raise (CalledProcessError ["/usr/sbin/service"; "postfix"; "stop"]
              (service_status w "postfix" "stop")),
     record (service_event "postfix" "stop")
       (record (service_event "dovecot" "stop") sc)).
Proof.
  intros Hmode Hd Hp.
  rewrite perform_backup_until_mode, run_bind, Hmode, !run_bind.
  rewrite (stop_services_run w sc Hd).
  by destruct (Z.eqb_spec (service_status w "postfix" "stop") 0).
Qed.

Lemma failed_postfix_stop_leaves_dovecot_stopped_witness :
  exists e,
    perform_backup host_postfix_stuck true start
    = (Raise e,
       mkstate (paths start)
         [EvLock "backup"; service_event "dovecot" "stop"; service_event "postfix" "stop"]).
Proof.
  eexists.
  rewrite (failed_postfix_stop_leaves_dovecot_stopped host_postfix_stuck true true start
             (record (EvLock "backup") start) eq_refl eq_refl ltac:(discriminate)).
  reflexivity.
Defined.

(** ** Steps that cannot fail *)

Lemma guarded_call_ok (w : world) (args : result (list pyval)) (msg : string) (s : state) :
  exists s',
    try_except
      (args ← lift args; env ← lift (get_env w);
       _ ← shell w "check_call" args env; mret tt)
      (fun e => emit (EvLogWarn msg e)) s
    = (Ok tt, s') /\ paths s' = paths s.
Proof.
  unfold try_except. rewrite run_lift_bind.
  destruct args as [a |]; [| by eexists].
  rewrite run_lift_bind. destruct (get_env w) as [env |]; [| by eexists].
  rewrite run_bind. unfold shell. rewrite run_lift_bind.
  destruct (strs a) as [argv |]; [| by eexists].
  rewrite run_bind. unfold emit at 1.
  destruct (subprocess w argv env) as [code out].
  destruct (code =? 0); by eexists.
Qed.

(** X17: removing the migrated directory, pruning and the duplicity
    cleanup never make the run fail: each of them returns normally whatever
    duplicity answers, and pruning and cleanup leave the directories as
    they are. *)
Theorem housekeeping_never_fails (w : world) (config : gmap string pyval) (s : state) :
  (exists s1, remove_migrated w s = (Ok tt, s1)) /\
  (exists s2, prune w config s = (Ok tt, s2) /\ paths s2 = paths s) /\
  (exists s3, cleanup w config s = (Ok tt, s3) /\ paths s3 = paths s).
Proof.
  split; [| split].
  - unfold remove_migrated. rewrite run_bind. unfold path_exists.
    case_bool_decide as Hin; cbn [when]; [| by eexists].
    unfold rmtree. rewrite bool_decide_eq_true_2 by done. by eexists.
  - apply guarded_call_ok.
  - apply guarded_call_ok.
Qed.

(** ** A run that ends normally *)

Lemma emits_run {A} (P : event -> Prop) (m : M A) (s s' : state) (r : result A) :
  emits P m -> m s = (r, s') -> exists evs, trace s' = (trace s ++ evs)%list /\ Forall P evs.
Proof. intros Hm Hrun. specialize (Hm s). by rewrite Hrun in Hm. Qed.

(** X18: a backup run that ends normally has stopped dovecot and postfix,
    then made its snapshot attempt, then started dovecot and postfix again,
    in this order and with nothing else in between; all four service
    commands succeeded. *)
Theorem normal_run_brackets_snapshot (w : world) (full_backup : bool) (s s' : state) :
  perform_backup w full_backup s = (Ok tt, s') ->
  (service_status w "dovecot" "stop" = 0 /\ service_status w "postfix" "stop" = 0 /\
   service_status w "dovecot" "start" = 0 /\ service_status w "postfix" "start" = 0) /\
  exists before body after,
    trace s' = (before
                ++ [service_event "dovecot" "stop"; service_event "postfix" "stop"]
                ++ body
                ++ [service_event "dovecot" "start"; service_event "postfix" "start"]
                ++ after)%list /\
    Forall (fun ev => snapshot_event ev = true) body.
Proof.
  unfold perform_backup. intros H.
  apply bind_ok_inv in H as (mode & s1 & Hbefore & H).
  apply bind_ok_inv in H as ([] & s2 & Hstep & Hafter).
  apply before_snapshot_ok_inv in Hbefore as (sa & sb & sc & _ & _ & _ & Hstop).
  apply stop_services_ok_inv in Hstop as (Hd_stop & Hp_stop & ->).
  destruct (snapshot_attempt w (get_backup_config w) mode
              (record (service_event "postfix" "stop")
                 (record (service_event "dovecot" "stop") sc))) as [body [Hrun Hbody]].
  unfold snapshot_step, try_finally in Hstep. rewrite Hrun in Hstep.
  destruct (Z.eqb_spec (service_status w "dovecot" "start") 0) as [Hd | Hd].
  2: { rewrite (start_services_dovecot_fails w _ Hd) in Hstep. done. }
  rewrite (start_services_run w _ Hd) in Hstep.
  destruct (Z.eqb_spec (service_status w "postfix" "start") 0) as [Hp | Hp]; [| done].
  injection Hstep as <-.
  destruct (emits_run _ _ _ _ _ (after_snapshot_emits_allowed w (get_backup_config w)) Hafter)
    as [after [Htrace _]].
  split; [done |].
  exists (trace sc), body, after. split; [| exact Hbody].
  rewrite Htrace. cbn [record trace paths]. by rewrite <- !app_assoc.
Qed.

Lemma normal_run_brackets_snapshot_witness :
  let w := host None good_key (duplicity_ok status_listing) in
  exists s', perform_backup w false start = (Ok tt, s') /\
             service_status w "postfix" "start" = 0.
Proof.
  intros w. exists (perform_backup w false start).2.
  assert (H : perform_backup w false start = (Ok tt, (perform_backup w false start).2))
    by (vm_compute; reflexivity).
  split; [exact H |].
  exact (proj2 (proj2 (proj2 (proj1 (normal_run_brackets_snapshot w false start _ H))))).
Defined.

(** ** The command line *)

Lemma strs_verify_args (w : world) (config : gmap string pyval)
    (args : list pyval) (argv : list string) :
  verify_args w config = Ok args ->
  strs args = Ok argv ->
  argv !! 0%nat = Some "/usr/bin/duplicity" /\ argv !! 3%nat = Some "verify".
Proof.
  unfold verify_args, getitem.
  destruct (config !! "target") as [t |]; [| discriminate].
  intros [= <-]. cbn [fmap list_fmap app strs as_str].
  destruct (as_str t) as [l |]; [| discriminate].
  by intros [= <-].
Qed.

(** X19: called with [--verify] as its last argument the script only
    verifies: it takes no lock, stops no service, moves and deletes
    nothing, and runs at most one command, [duplicity verify], with the
    environment of [get_env] -- also when [--full] is among the
    arguments. *)
Theorem verify_mode_only_verifies (w : world) (argv : list string) (s : state) :
  last argv = Some "--verify" ->
  exists r evs,
    main w argv s = (r, mkstate (paths s) (trace s ++ evs)%list) /\
    (length evs <= 1)%nat /\
    Forall (is_verify_call w) evs.
Proof.
  intros Hlast. unfold main. rewrite Hlast. cbn [String.eqb Ascii.eqb Bool.eqb].
  unfold run_duplicity_verification. rewrite run_lift_bind.
  destruct (verify_args w (get_backup_config w)) as [args |] eqn:Hargs.
  2: { exists (Raise e), []. rewrite app_nil_r.
       destruct s; split; [done | split; [cbn; lia | constructor]]. }
  rewrite run_lift_bind. destruct (get_env w) as [env |] eqn:Henv.
  2: { exists (Raise e), []. rewrite app_nil_r.
       destruct s; split; [done | split; [cbn; lia | constructor]]. }
  rewrite run_bind. destruct (strs args) as [cmd |] eqn:Hcmd.
  - rewrite (shell_run w _ args cmd env s Hcmd).
    destruct (strs_verify_args w _ args cmd Hargs Hcmd) as [H0 H3].
    assert (Hev : Forall (is_verify_call w) [EvShell "check_call" cmd env]).
    { repeat constructor. by exists cmd, env. }
    destruct ((subprocess w cmd env).1 =? 0); eexists _, [_];
      (split; [reflexivity | split; [cbn; lia | exact Hev]]).
  - unfold shell. rewrite run_lift_bind, Hcmd.
    exists (Raise e), []. rewrite app_nil_r.
       destruct s; split; [done | split; [cbn; lia | constructor]].
Qed.

Lemma verify_mode_only_verifies_witness :
  let w := host None good_key (duplicity_ok status_listing) in
  exists r evs,
    main w ["backup.py"; "--full"; "--verify"] start = (r, mkstate (paths start) evs) /\
    (length evs <= 1)%nat.
Proof.
  intros w.
  destruct (verify_mode_only_verifies w ["backup.py"; "--full"; "--verify"] start eq_refl)
    as [r [evs [Hrun [Hlen _]]]].
  by exists r, evs.
Defined.

(** ** Changing the configuration *)

Lemma config_of_fresh (w : world) : (config_of (fresh_store w)).1 = get_backup_config w.
Proof.
  unfold config_of, fresh_store, get_backup_config. cbn [document defaults].
  by destruct (custom_yaml w) as [[m |] |].
Qed.

(** *** What [int()] accepts *)

Lemma digit_not_space (c : ascii) :
  is_Some (digit_val c) -> is_space c = false /\ is_int_space c = false.
Proof.
  destruct c as [[] [] [] [] [] [] [] []]; intros [d Hd]; vm_compute in Hd;
    first [discriminate | split; reflexivity].
Qed.

Lemma digits_val_last (acc : Z) (after_digit : bool) (s : string) (z : Z) :
  digits_val acc after_digit s = Some z ->
  (s = "" /\ after_digit = true) \/
  (exists c, last_char s = Some c /\ is_Some (digit_val c)).
Proof.
  revert acc after_digit. induction s as [| c s IH]; intros acc after_digit; cbn [digits_val].
  - destruct after_digit; [by left | done].
  - intros H. right.
    destruct (Ascii.eqb c "_").
    + destruct after_digit; [| done].
      destruct (IH _ _ H) as [[_ ?] | [c' [Hlast Hc']]]; [done |].
      exists c'. split; [| done]. destruct s; [done | exact Hlast].
    + destruct (digit_val c) as [d |] eqn:Hd; [| done].
      destruct (IH _ _ H) as [[-> _] | [c' [Hlast Hc']]].
      * exists c. split; [done | by rewrite Hd].
      * exists c'. split; [| done]. destruct s; [done | exact Hlast].
Qed.

Lemma digits_val_first (acc : Z) (c : ascii) (s : string) (z : Z) :
  digits_val acc false (String c s) = Some z -> is_Some (digit_val c).
Proof.
  cbn [digits_val]. destruct (Ascii.eqb c "_"); [done |].
  by destruct (digit_val c).
Qed.

(** The number that [int()] reads starts and ends with a character that no
    [strip()] would take away. *)
Lemma py_int_body (s : string) (n : Z) :
  py_int s = Ok n ->
  exists c t c',
    strip_of is_int_space s = String c t /\
    is_space c = false /\
    last_char (String c t) = Some c' /\ is_space c' = false.
Proof.
  unfold py_int. destruct (strip_of is_int_space s) as [| c t] eqn:Hbody; [done |].
  intros H.
  assert (Hcases : (exists z, digits_val 0 false (String c t) = Some z) \/
                   ((c = "-"%char \/ c = "+"%char) /\ exists z, digits_val 0 false t = Some z)).
  { destruct (decide (c = "-"%char)) as [-> | Hm].
    - right. split; [by left |]. destruct (digits_val 0 false t); [eauto | done].
    - destruct (decide (c = "+"%char)) as [-> | Hp].
      + right. split; [by right |]. destruct (digits_val 0 false t); [eauto | done].
      + left. destruct (digits_val 0 false (String c t)) as [z |] eqn:Hz; [eauto |].
        exfalso.
        destruct c as [[] [] [] [] [] [] [] []];
          first [ by destruct Hm | by destruct Hp | by rewrite Hz in H ]. }
  destruct Hcases as [[z Hz] | [Hsign [z Hz]]].
  - destruct (digits_val_last _ _ _ _ Hz) as [[? _] | [c' [Hlast Hc']]]; [done |].
    exists c, t, c'. split; [done |].
    split; [exact (proj1 (digit_not_space c (digits_val_first _ _ _ _ Hz))) |].
    split; [exact Hlast | exact (proj1 (digit_not_space c' Hc'))].
  - destruct (digits_val_last _ _ _ _ Hz) as [[_ ?] | [c' [Hlast Hc']]]; [done |].
    exists c, t, c'. split; [done |].
    split; [by destruct Hsign as [-> | ->] |].
    split; [| exact (proj1 (digit_not_space c' Hc'))].
    destruct t; [done | exact Hlast].
Qed.

Lemma int_space_is_space (c : ascii) : is_int_space c = true -> is_space c = true.
Proof. destruct c as [[] [] [] [] [] [] [] []]; vm_compute; congruence. Qed.

Lemma rstrip_of_head (blank : ascii -> bool) (c : ascii) (s : string) (c0 : ascii) (t : string) :
  rstrip_of blank (String c s) = String c0 t -> c0 = c.
Proof.
  cbn [rstrip_of]. destruct (rstrip_of blank s); [destruct (blank c) |]; congruence.
Qed.

Lemma lstrip_of_coarser (s : string) (c : ascii) (t : string) :
  lstrip_of is_int_space s = String c t -> is_space c = false ->
  lstrip_of is_space s = String c t.
Proof.
  induction s as [| a s IH]; cbn [lstrip_of]; [done |].
  destruct (is_int_space a) eqn:Ha.
  - rewrite (int_space_is_space a Ha). exact IH.
  - intros [= -> ->] Hc. by rewrite Hc.
Qed.

Lemma rstrip_of_empty_coarser (s : string) :
  rstrip_of is_int_space s = "" -> rstrip_of is_space s = "".
Proof.
  induction s as [| a s IH]; cbn [rstrip_of]; [done |].
  destruct (rstrip_of is_int_space s); [| done].
  rewrite IH by done. destruct (is_int_space a) eqn:Ha; [| done].
  by rewrite (int_space_is_space a Ha).
Qed.

Lemma rstrip_of_coarser (s r : string) (c' : ascii) :
  rstrip_of is_int_space s = r -> last_char r = Some c' -> is_space c' = false ->
  rstrip_of is_space s = r.
Proof.
  revert r. induction s as [| a s IH]; intros r; cbn [rstrip_of].
  - by intros <-.
  - destruct (rstrip_of is_int_space s) as [| b u] eqn:Hu.
    + rewrite (rstrip_of_empty_coarser s Hu).
      destruct (is_int_space a); intros <-; [done |].
      cbn. intros [= ->] ->. done.
    + intros <- Hlast Hc'. by rewrite (IH (String b u) eq_refl Hlast Hc').
Qed.

Lemma lstrip_of_fixed (blank : ascii -> bool) (c : ascii) (t : string) :
  blank c = false -> lstrip_of blank (String c t) = String c t.
Proof. intros H. cbn. by rewrite H. Qed.

Lemma rstrip_of_fixed (blank : ascii -> bool) (s : string) (c' : ascii) :
  last_char s = Some c' -> blank c' = false -> rstrip_of blank s = s.
Proof.
  induction s as [| a s IH]; [done |]. cbn [rstrip_of last_char].
  destruct s as [| b u].
  - intros [= ->] ->. done.
  - intros Hlast Hc'. by rewrite (IH Hlast Hc').
Qed.

Lemma space_not_int_space (c : ascii) : is_space c = false -> is_int_space c = false.
Proof.
  intros H. destruct (is_int_space c) eqn:Hc; [| done].
  by rewrite (int_space_is_space c Hc) in H.
Qed.

(** [int(s)] and [int(s.strip())] read the same number. *)
Lemma py_int_strip (s : string) (n : Z) :
  py_int s = Ok n -> py_int (strip s) = Ok n.
Proof.
  intros H. destruct (py_int_body s n H) as (c & t & c' & Hbody & Hc & Hlast & Hc').
  assert (Hstrip : strip s = String c t).
  { unfold strip, strip_of in *.
    destruct (lstrip_of is_int_space s) as [| c0 u] eqn:Hl; [done |].
    pose proof (rstrip_of_head _ _ _ _ _ Hbody) as <-.
    rewrite (lstrip_of_coarser s c u Hl Hc).
    exact (rstrip_of_coarser _ _ c' Hbody Hlast Hc'). }
  revert H. unfold py_int. rewrite Hbody, Hstrip.
  unfold strip_of. rewrite (lstrip_of_fixed _ c t (space_not_int_space c Hc)).
  by rewrite (rstrip_of_fixed _ _ c' Hlast (space_not_int_space c' Hc')).
Qed.

Example py_int_examples :
  py_int " 14 " = Ok 14 /\ py_int "1_4" = Ok 14 /\ py_int "-007" = Ok (-7) /\
  py_int "1__4" = Raise ValueError /\ py_int "14_" = Raise ValueError /\
  py_int "" = Raise ValueError /\ py_int "1 4" = Raise ValueError /\
  py_int (String (ascii_of_nat 28) "14") = Raise ValueError /\
  py_int (strip (String (ascii_of_nat 28) "14")) = Ok 14.
Proof. repeat split. Qed.

(** X20: after [backup_set_custom] has returned, [get_backup_config]
    gives the configuration that was there before with the four fields
    replaced by the values passed in -- every other field of the document
    is kept -- and a minimum age passed as text is stored as the integer it
    spells. *)
Theorem set_then_get (target user pass min_age : pyval) (st st' : store) (msg : string) :
  backup_set_custom target user pass min_age st = (Ok msg, st') ->
  exists age,
    coerce_min_age min_age = Ok age /\
    (forall s, min_age = VStr s ->
       exists n, age = VInt n /\ py_int s = Ok n /\ py_int (strip s) = Ok n) /\
    config_of st'
    = (<["min_age_in_days" := age]>
         (<["target_pass" := pass]>
            (<["target_user" := user]>
               (<["target" := target]> (config_of st).1))), false) /\
    (forall k, k <> "target" -> k <> "target_user" -> k <> "target_pass" ->
               k <> "min_age_in_days" ->
               (config_of st').1 !! k = (config_of st).1 !! k).
Proof.
  unfold backup_set_custom.
  destruct (config_of st) as [config alias] eqn:Hconfig.
  destruct (coerce_min_age min_age) as [age |] eqn:Hage; [| done].
  intros [= _ <-]. exists age. split; [done |]. split.
  - intros s ->. cbn in Hage. destruct (py_int s) as [n |] eqn:Hn; [| done].
    injection Hage as <-. exists n. by split; [| split; [| apply py_int_strip]].
  - split; [by destruct alias |].
    intros k H1 H2 H3 H4.
    assert (Hget : config_of (write_backup_config
                     (<["min_age_in_days" := age]>
                        (<["target_pass" := pass]>
                           (<["target_user" := user]> (<["target" := target]> config))))
                     (if alias then mkstore
                        (<["min_age_in_days" := age]>
                           (<["target_pass" := pass]>
                              (<["target_user" := user]> (<["target" := target]> config))))
                        (document st) else st))
                   = (<["min_age_in_days" := age]>
                        (<["target_pass" := pass]>
                           (<["target_user" := user]> (<["target" := target]> config))), false))
      by (by destruct alias).
    rewrite Hget. cbn [fst]. by rewrite !lookup_insert_ne.
Qed.

Lemma set_then_get_witness :
  let st := mkstore (default_config (host None good_key (duplicity_ok status_listing)))
                    (Some (YMap sftp_document)) in
  exists st',
    backup_set_custom (VStr "s3://s3.amazonaws.com/bucket/box") (VStr "AKIAEXAMPLE")
      (VStr "secret") (VStr " 14 ") st = (Ok "Updated backup config", st') /\
    (config_of st').1 !! "min_age_in_days" = Some (VInt 14).
Proof.
  intros st. eexists. split; [reflexivity |].
  destruct (set_then_get (VStr "s3://s3.amazonaws.com/bucket/box") (VStr "AKIAEXAMPLE")
              (VStr "secret") (VStr " 14 ") st _ _ eq_refl)
    as [age [Hage [_ [Hget _]]]].
  rewrite Hget. cbn [fst]. rewrite lookup_insert_eq.
  f_equal. vm_compute in Hage. by injection Hage.
Defined.

(** X21: a minimum age given as text that [int()] does not accept makes
    [backup_set_custom] raise ValueError before anything is assigned or
    written. *)
Theorem set_rejects_bad_min_age (target user pass : pyval) (s : string) (st : store) :
  py_int s = Raise ValueError ->
  backup_set_custom target user pass (VStr s) st = (Raise ValueError, st).
Proof.
  intros Hbad. unfold backup_set_custom.
  destruct (config_of st) as [config alias]. cbn [coerce_min_age].
  by rewrite Hbad.
Qed.

Lemma set_rejects_bad_min_age_witness :
  let st := fresh_store (host None good_key (duplicity_ok status_listing)) in
  backup_set_custom (VStr "file:///mnt/backup") VOther VOther (VStr "three") st
  = (Raise ValueError, st).
Proof.
  intros st.
  exact (set_rejects_bad_min_age (VStr "file:///mnt/backup") VOther VOther "three" st eq_refl).
Defined.

(** X22: when custom.yaml cannot be used, [backup_set_custom] assigns
    into the module-level [default_config] itself: from then on the
    process's defaults are the new settings, and they are what
    [get_backup_config] returns if custom.yaml becomes unusable again.
    When custom.yaml holds a mapping the defaults are left alone. *)
Theorem set_overwrites_defaults_when_unconfigured
    (target user pass min_age : pyval) (st st' : store) (msg : string) :
  backup_set_custom target user pass min_age st = (Ok msg, st') ->
  (document st = None \/ document st = Some YOther ->
   defaults st' = (config_of st').1 /\
   defaults st' !! "target" = Some target /\
   config_of (mkstore (defaults st') None) = ((config_of st').1, true)) /\
  (forall doc, document st = Some (YMap doc) -> defaults st' = defaults st).
Proof.
  unfold backup_set_custom. intros H. split.
  - intros Hdoc.
    assert (Hconfig : config_of st = (defaults st, true))
      by (unfold config_of; by destruct Hdoc as [-> | ->]).
    rewrite Hconfig in H.
    destruct (coerce_min_age min_age) as [age |]; [| done].
    injection H as _ <-. cbn [write_backup_config defaults document config_of fst].
    split; [done |]. split; [| done].
    rewrite !lookup_insert_ne by done. apply lookup_insert_eq.
  - intros doc Hdoc.
    assert (Hconfig : config_of st = (doc, false)) by (unfold config_of; by rewrite Hdoc).
    rewrite Hconfig in H.
    destruct (coerce_min_age min_age) as [age |]; [| done].
    by injection H as _ <-.
Qed.

Lemma set_overwrites_defaults_when_unconfigured_witness :
  let st := fresh_store (host None good_key (duplicity_ok status_listing)) in
  exists st',
    backup_set_custom (VStr "sftp://backup@example.com/box") (VStr "backup")
      (VStr "secret") (VInt 7) st = (Ok "Updated backup config", st') /\
    defaults st' !! "target" = Some (VStr "sftp://backup@example.com/box") /\
    defaults st !! "target" = Some (VStr "file:///home/user-data/backup/encrypted").
Proof.
  intros st. eexists. split; [reflexivity |].
  split; [| reflexivity].
  exact (proj1 (proj2 (proj1 (set_overwrites_defaults_when_unconfigured
                                (VStr "sftp://backup@example.com/box") (VStr "backup")
                                (VStr "secret") (VInt 7) st _ _ eq_refl)
                         (or_introl eq_refl)))).
Defined.

(** ** The migration of the old directory *)

Lemma append_assoc (a b c : string) : (a +:+ b) +:+ c = a +:+ (b +:+ c).
Proof.
  induction a as [| x a IH]; [done |].
  change ((String x a +:+ b) +:+ c) with (String x ((a +:+ b) +:+ c)).
  change (String x a +:+ (b +:+ c)) with (String x (a +:+ (b +:+ c))).
  by rewrite IH.
Qed.

Lemma prefix_append (a x y : string) :
  String.prefix (a +:+ x) (a +:+ y) = String.prefix x y.
Proof.
  induction a as [| c a IH]; [done |].
  change (String c a +:+ x) with (String c (a +:+ x)).
  change (String c a +:+ y) with (String c (a +:+ y)).
  cbn [String.prefix]. by destruct (ascii_dec c c).
Qed.

Lemma eqb_append (a x y : string) :
  String.eqb (a +:+ x) (a +:+ y) = String.eqb x y.
Proof.
  induction a as [| c a IH]; [done |].
  change (String c a +:+ x) with (String c (a +:+ x)).
  change (String c a +:+ y) with (String c (a +:+ y)).
  cbn [String.eqb]. by rewrite Ascii.eqb_refl.
Qed.

Lemma path_join_prefix (a b : string) :
  startswith b "/" = false -> path_join a b = path_prefix a +:+ b.
Proof.
  intros Hrel. unfold path_join, path_prefix. rewrite Hrel.
  destruct (String.eqb a "" || endswith a "/"); [done |].
  by rewrite append_assoc.
Qed.

(** The three directories of the migration, spelled out over a common
    beginning. *)
Lemma migration_paths (w : world) :
  exists r sep,
    (sep = "" \/ sep = "/") /\
    migrated_unencrypted_backup_dir w = r +:+ "migrated_unencrypted_backup" /\
    old_backup_dir w = r +:+ ("backup" +:+ sep +:+ "duplicity") /\
    backup_dir w = r +:+ ("backup" +:+ sep +:+ "encrypted").
Proof.
  unfold migrated_unencrypted_backup_dir, old_backup_dir, backup_dir, backup_root.
  rewrite !path_join_prefix by done.
  set (r := path_prefix (storage_root w)).
  exists r. unfold path_prefix at 1 2.
  destruct (String.eqb (r +:+ "backup") "" || endswith (r +:+ "backup") "/").
  - exists "". split; [by left |]. by rewrite !append_assoc.
  - exists "/". split; [by right |]. by rewrite !append_assoc.
Qed.

Lemma migration_paths_apart (w : world) :
  migrated_unencrypted_backup_dir w <> old_backup_dir w /\
  under (backup_dir w) (migrated_unencrypted_backup_dir w) = false /\
  under (old_backup_dir w) (migrated_unencrypted_backup_dir w) = false.
Proof.
  destruct (migration_paths w) as (r & sep & Hsep & -> & -> & ->).
  unfold under, startswith.
  rewrite !append_assoc, !eqb_append, !prefix_append.
  split; [| by destruct Hsep as [-> | ->]].
  intros Heq. apply String.eqb_eq in Heq. rewrite eqb_append in Heq.
  by destruct Hsep as [-> | ->].
Qed.

Lemma under_refl (p : string) : under p p = true.
Proof. unfold under. by rewrite String.eqb_refl. Qed.

Lemma migrate_absent (w : world) (s : state) :
  old_backup_dir w ∉ paths s -> migrate w s = (Ok tt, s).
Proof.
  intros Habsent. unfold migrate. rewrite run_bind. unfold path_exists.
  by rewrite bool_decide_eq_false_2.
Qed.

Lemma migrate_present (w : world) (s : state) :
  old_backup_dir w ∈ paths s ->
  migrated_unencrypted_backup_dir w ∉ paths s ->
  migrate w s
  = rmtree (backup_dir w)
      (mkstate (rename_tree (old_backup_dir w) (migrated_unencrypted_backup_dir w) (paths s))
         (trace s ++ [EvMove (old_backup_dir w) (migrated_unencrypted_backup_dir w)])%list).
Proof.
  intros Hold Hnew. unfold migrate. rewrite run_bind. unfold path_exists.
  rewrite bool_decide_eq_true_2 by done. cbn [when]. rewrite run_bind. unfold move.
  by rewrite bool_decide_eq_false_2.
Qed.

Lemma rename_tree_spec (w : world) (ps : gset string) :
  (old_backup_dir w
     ∉ rename_tree (old_backup_dir w) (migrated_unencrypted_backup_dir w) ps) /\
  (migrated_unencrypted_backup_dir w
     ∈ rename_tree (old_backup_dir w) (migrated_unencrypted_backup_dir w) ps) /\
  (backup_dir w ∈ rename_tree (old_backup_dir w) (migrated_unencrypted_backup_dir w) ps ->
   backup_dir w ∈ ps).
Proof.
  destruct (migration_paths_apart w) as (Hne & Hunder & _).
  unfold rename_tree. split; [| split].
  - rewrite elem_of_union, elem_of_filter, elem_of_singleton, under_refl.
    intros [[? _] | ?]; [done | by apply Hne].
  - apply elem_of_union_r. by apply elem_of_singleton.
  - rewrite elem_of_union, elem_of_filter, elem_of_singleton.
    intros [[_ ?] | Heq]; [done |].
    unfold under in Hunder. rewrite Heq, String.eqb_refl in Hunder. done.
Qed.

(** X23: the migration happens once.  On a box where the migrated
    directory does not exist yet, a migration that returns normally leaves
    no old directory behind, so running it again changes nothing; if it
    found the old directory, that directory is now the migrated one and
    [backup/encrypted] has been cleared away. *)
Theorem migration_happens_once (w : world) (s s' : state) :
  migrated_unencrypted_backup_dir w ∉ paths s ->
  migrate w s = (Ok tt, s') ->
  (old_backup_dir w ∉ paths s') /\
  migrate w s' = (Ok tt, s') /\
  (old_backup_dir w ∈ paths s ->
   (migrated_unencrypted_backup_dir w ∈ paths s') /\ (backup_dir w ∉ paths s')).
Proof.
  intros Hnew Hrun.
  destruct (decide (old_backup_dir w ∈ paths s)) as [Hold | Hold].
  - rewrite (migrate_present w s Hold Hnew) in Hrun. unfold rmtree in Hrun.
    cbn [paths trace] in Hrun.
    case_bool_decide as Henc; [| done]. injection Hrun as <-.
    destruct (rename_tree_spec w (paths s)) as (Hgone & Hthere & _).
    destruct (migration_paths_apart w) as (_ & Hunder & _).
    assert (Habsent : old_backup_dir w
                        ∉ filter (fun q => under (backup_dir w) q = false)
                            (rename_tree (old_backup_dir w)
                               (migrated_unencrypted_backup_dir w) (paths s))).
    { rewrite elem_of_filter. by intros [_ ?]. }
    split; [exact Habsent |]. split; [by apply migrate_absent |].
    intros _. cbn [paths]. split.
    + by apply elem_of_filter.
    + rewrite elem_of_filter, under_refl. by intros [? _].
  - rewrite (migrate_absent w s Hold) in Hrun. injection Hrun as <-.
    split; [done |]. split; [by apply migrate_absent | done].
Qed.

Lemma migration_happens_once_witness :
  let w := host None good_key (duplicity_ok status_listing) in
  exists s',
    migrate w legacy_start = (Ok tt, s') /\
    migrate w s' = (Ok tt, s') /\
    elements (paths s')
    = ["/home/user-data/migrated_unencrypted_backup"; "/home/user-data/backup/cache"].
Proof.
  intros w. exists (migrate w legacy_start).2.
  assert (Hnew : migrated_unencrypted_backup_dir w ∉ paths legacy_start)
    by (apply (bool_decide_eq_false_1 _); vm_compute; reflexivity).
  assert (Hrun : migrate w legacy_start = (Ok tt, (migrate w legacy_start).2))
    by (vm_compute; reflexivity).
  split; [exact Hrun |]. split.
  - exact (proj1 (proj2 (migration_happens_once w legacy_start _ Hnew Hrun))).
  - vm_compute. reflexivity.
Defined.

(** X24: when the old directory is found but [backup/encrypted] does not
    exist, the run moves the old directory away and then fails on the
    removal of [backup/encrypted]: it ends with that error before any
    command has been run, with the old files in the migrated directory. *)
Theorem migration_needs_encrypted_directory (w : world) (full_backup : bool) (s : state) :
  lock_free w = true ->
  old_backup_dir w ∈ paths s ->
  migrated_unencrypted_backup_dir w ∉ paths s ->
  backup_dir w ∉ paths s ->
  exists s',
    perform_backup w full_backup s = (Raise (IOError (backup_dir w)), s') /\
    trace s' = (trace s ++ [EvLock "backup";
                            EvMove (old_backup_dir w) (migrated_unencrypted_backup_dir w);
                            EvRmtree (backup_dir w)])%list /\
    (old_backup_dir w ∉ paths s') /\
    (migrated_unencrypted_backup_dir w ∈ paths s').
Proof.
  intros Hlock Hold Hnew Henc.
  rewrite perform_backup_after_lock, Hlock. unfold after_lock.
  rewrite run_bind, run_bind.
  rewrite (migrate_present w (record (EvLock "backup") s)) by done.
  destruct (rename_tree_spec w (paths s)) as (Hgone & Hthere & Hsame).
  unfold rmtree. cbn [paths trace record].
  rewrite bool_decide_eq_false_2 by (intros Hin; by apply Henc, Hsame).
  eexists. split; [reflexivity |]. cbn [paths trace].
  split; [by rewrite <- !app_assoc | done].
Qed.

Lemma migration_needs_encrypted_directory_witness :
  let w := host None good_key (duplicity_ok status_listing) in
  exists s',
    perform_backup w false legacy_without_encrypted
    = (Raise (IOError "/home/user-data/backup/encrypted"), s').
Proof.
  intros w.
  destruct (migration_needs_encrypted_directory w false legacy_without_encrypted eq_refl)
    as [s' [Hrun _]].
  - apply (bool_decide_eq_true_1 _). vm_compute. reflexivity.
  - apply (bool_decide_eq_false_1 _). vm_compute. reflexivity.
  - apply (bool_decide_eq_false_1 _). vm_compute. reflexivity.
  - by exists s'.
Defined.

(** ** Ownership and the hook *)

(** X25: ownership is changed only for targets of type [file], and the
    hook is run only when the script exists; the hook is started through
    [su] as the storage user, with the script, then the target as its
    arguments and with the environment that duplicity gets. *)
Theorem ownership_and_hook (w : world) (config : gmap string pyval) (s : state) :
  (forall ty, get_target_type config = Ok ty -> ty <> "file" ->
     fix_ownership w config s = (Ok tt, s)) /\
  (post_script w ∉ paths s -> run_post_script w config s = (Ok tt, s)) /\
  (forall target env,
     post_script w ∈ paths s ->
     config !! "target" = Some (VStr target) ->
     get_env w = Ok env ->
     exists r,
       run_post_script w config s
       = (r, record (EvShell "check_call"
                       ["su"; storage_user w; "-c"; post_script w; target] env) s)).
Proof.
  split; [| split].
  - intros ty Hty Hne. unfold fix_ownership. rewrite run_lift_bind, Hty.
    by destruct (String.eqb_spec ty "file").
  - intros Habsent. unfold run_post_script. rewrite run_bind. unfold path_exists.
    by rewrite bool_decide_eq_false_2.
  - intros target env Hthere Htarget Henv.
    unfold run_post_script. rewrite run_bind. unfold path_exists.
    rewrite bool_decide_eq_true_2 by done. cbn [when].
    rewrite run_lift_bind. unfold hook_args, getitem. rewrite Htarget.
    cbn [mbind result_bind rbind]. rewrite run_lift_bind, Henv, run_bind.
    rewrite (shell_run w _ _ ["su"; storage_user w; "-c"; post_script w; target] env s)
      by reflexivity.
    destruct ((subprocess w _ env).1 =? 0); by eexists.
Qed.

Lemma ownership_and_hook_witness :
  let w := host (Some (YMap sftp_document)) good_key (duplicity_ok status_listing) in
  fix_ownership w (get_backup_config w) start_with_hook = (Ok tt, start_with_hook) /\
  exists r env,
    run_post_script w (get_backup_config w) start_with_hook
    = (r, record (EvShell "check_call"
                    ["su"; "user-data"; "-c"; "/home/user-data/backup/after-backup";
                     "sftp://backup@example.com/box"] env) start_with_hook).
Proof.
  intros w.
  destruct (ownership_and_hook w (get_backup_config w) start_with_hook)
    as (Hown & _ & Hhook).
  split.
  - exact (Hown "sftp" eq_refl ltac:(discriminate)).
  - destruct (Hhook "sftp://backup@example.com/box" {["PASSPHRASE" := VStr (strip good_key)]})
      as [r Hr].
    + apply (bool_decide_eq_true_1 _). vm_compute. reflexivity.
    + reflexivity.
    + vm_compute. reflexivity.
    + by exists r, {["PASSPHRASE" := VStr (strip good_key)]}.
Defined.

